(** * debugging-tool: element inspection, selector generation and the
      annotation store

    A shallow embedding of the pure logic of the toolkit:

    - [components/ElementInspector]: [generateUniqueSelector], [getDomPath],
      [extractTextContent], [extractNPComment], [getElementInfo];
    - [components/AnnotationSystem]: [generateAIPrompt], the dialog's
      [handleSave], the click handler [handleClick], [handleSaveAnnotation];
    - [components/AnnotationsDashboard]: [annotationList], [counts],
      [updateStatus], [deleteAnnotation], [clearAll];
    - [lib/utils]: [generateId], [formatBytes];
    - further code of the same files: [getReactFiberName], the handlers of
      the [ElementInspector] component, [annotationCounts], and the
      cold-reload button of [DebugOverlay].

    JavaScript strings are modelled as sequences of code units below 256
    (Rocq's [string]); numbers that the code only uses as integers (indices,
    lengths, epoch milliseconds) are in [Z] or [nat]. *)

From Stdlib Require Import ZArith Ascii String DecimalString Sorting.Sorted.
From Stdlib Require DecimalPos DecimalZ.
From stdpp Require Import gmap strings list.

(** ** JavaScript string and array primitives *)

Module JS.

(** [Boolean(s)] for a string: only the empty string is falsy. *)
Definition truthy (s : string) : bool :=
  match s with
  | EmptyString => false
  | String _ _ => true
  end.

(** [String.prototype.toLowerCase] on code units below 256: the letters
    A-Z and the Latin-1 capitals U+00C0-U+00DE (except the multiplication
    sign U+00D7) move up by 32. *)
Definition lower_unit (c : ascii) : ascii :=
  let n := nat_of_ascii c in
  if ((65 <=? n) && (n <=? 90))
     || ((192 <=? n) && (n <=? 222) && negb (n =? 215))
  then ascii_of_nat (n + 32)
  else c.

Fixpoint toLowerCase (s : string) : string :=
  match s with
  | EmptyString => EmptyString
  | String c s' => String (lower_unit c) (toLowerCase s')
  end.

(** White space and line terminators of ECMAScript that fit in a code unit
    below 256: TAB, LF, VT, FF, CR, SP and NBSP. *)
Definition isWhiteSpace (c : ascii) : bool :=
  let n := nat_of_ascii c in
  ((9 <=? n) && (n <=? 13)) || (n =? 32) || (n =? 160).

Fixpoint trimStart (s : string) : string :=
  match s with
  | EmptyString => EmptyString
  | String c s' => if isWhiteSpace c then trimStart s' else s
  end.

Definition trimEnd (s : string) : string :=
  String.rev (trimStart (String.rev s)).

Definition trim (s : string) : string := trimEnd (trimStart s).

(** [s.slice(b, e)] for [0 <= b <= e]. *)
Definition slice (b e : nat) (s : string) : string :=
  String.substring b (e - b) s.

(** [Array.prototype.join]. *)
Definition join (sep : string) (l : list string) : string :=
  String.concat sep l.

(** Template-literal conversion of an integer. *)
Definition decimal (z : Z) : string :=
  NilZero.string_of_int (Z.to_int z).

(** The double-quote character of the attribute selectors. *)
Definition quote : string := String "034"%char EmptyString.

(** The line feed of the multi-line templates. *)
Definition nl : string := String "010"%char EmptyString.

(** [Array.prototype.indexOf] on an array of node identities:
    the first position holding [x], or [-1]. *)
Fixpoint indexOf_from (i : Z) (l : list nat) (x : nat) : Z :=
  match l with
  | [] => (-1)%Z
  | y :: l' => if y =? x then i else indexOf_from (i + 1)%Z l' x
  end.

Definition indexOf (l : list nat) (x : nat) : Z := indexOf_from 0%Z l x.

(** [s.includes(needle)]. *)
Definition includes (needle s : string) : bool :=
  match String.index 0 needle s with
  | Some _ => true
  | None => false
  end.

(** [s.split(sep)] for a separator that is not empty: the pieces of [s]
    between the occurrences of [sep], found from left to right.  [skip]
    counts the code units of a matched separator still to pass over. *)
Fixpoint splitWalk (sep : string) (skip : nat) (s : string) : list string :=
  match s with
  | EmptyString => [EmptyString]
  | String c s' =>
      match skip with
      | S k => splitWalk sep k s'
      | 0 =>
          if String.prefix sep s
          then EmptyString :: splitWalk sep (String.length sep - 1) s'
          else
            match splitWalk sep 0 s' with
            | piece :: pieces => String c piece :: pieces
            | [] => [String c EmptyString]
            end
      end
  end.

Definition split (sep s : string) : list string := splitWalk sep 0 s.

End JS.

(** ** The DOM as the components read it *)

Module DOM.

(** [className] is a string on HTML elements and an [SVGAnimatedString]
    object on SVG elements. *)
Inductive ClassNameValue :=
  | DOMString (s : string)
  | SVGAnimatedString (baseVal : string).

(** An element together with its chain of ancestors.  [uid] is the identity
    of the node (what [===] and [indexOf] compare); [children] lists the
    identities of the element's child elements in document order;
    [attributes] holds the content attributes read through [getAttribute]
    and [dataset]. *)
#[local] Unset Elimination Schemes.
Inductive Element := mkElement {
  uid : nat;
  tagName : string;
  id : string;
  className : ClassNameValue;
  classList : list string;
  attributes : gmap string string;
  textContent : option string;
  children : list nat;
  parentElement : option Element
}.
#[local] Set Elimination Schemes.

(** The document: the identity of [document.body]. *)
Record Document := mkDocument { body : nat }.

Definition getAttribute (e : Element) (name : string) : option string :=
  attributes e !! name.

(** [element.dataset?.np]: the value of the [data-np] attribute. *)
Definition dataset_np (e : Element) : option string :=
  getAttribute e "data-np".

(** [Boolean(element.className)]: an object is always truthy. *)
Definition classNameTruthy (e : Element) : bool :=
  match className e with
  | DOMString s => JS.truthy s
  | SVGAnimatedString _ => true
  end.

(** [element.closest('[data-debug-annotation]')] as a truth value: the
    element or one of its ancestors carries the attribute. *)
Fixpoint closestDebugAnnotation (e : Element) : bool :=
  bool_decide (is_Some (getAttribute e "data-debug-annotation"))
  || match parentElement e with
     | Some p => closestDebugAnnotation p
     | None => false
     end.

End DOM.

(** [x || undefined] and [if (x)] on a value that is a string, [null] or
    [undefined]. *)
Definition nonEmpty (o : option string) : option string :=
  match o with
  | Some s => if JS.truthy s then Some s else None
  | None => None
  end.

(** ** components/ElementInspector: utility functions *)

Module ElementInspector.
Import DOM.

(** The inspector's descriptor.  [dimensions], [position] and
    [componentName] are left out: they come from the layout engine and from
    the framework's fiber tree. *)
Record ElementInfo := mkElementInfo {
  tagName : string;
  id : option string;
  classList : list string;
  npComment : option string;
  uniqueSelector : string;
  domPath : list string;
  ariaLabel : option string;
  textContent : option string;
  role : option string;
  dataTestId : option string
}.

(** [extractNPComment]: the element's own [data-np], else that of one of
    at most three ancestors. *)
Fixpoint npWalk (parent : Element) (depth : nat) {struct parent}
    : option string :=
  if depth <? 3 then
    match nonEmpty (dataset_np parent) with
    | Some parentNp => Some parentNp
    | None =>
        match parentElement parent with
        | Some p => npWalk p (depth + 1)
        | None => None
        end
    end
  else None.

Definition extractNPComment (element : Element) : option string :=
  match nonEmpty (dataset_np element) with
  | Some npData => Some npData
  | None =>
      match parentElement element with
      | Some p => npWalk p 0
      | None => None
      end
  end.

(** One level of the selector path: the body of the [while] loop of
    [generateUniqueSelector] up to [path.unshift(selector)], for an
    element without an id. *)
Definition classQualified (current : Element) : string :=
  let selector := JS.toLowerCase (DOM.tagName current) in
  match className current with
  | DOMString s =>
      if JS.truthy s then
        let classes := DOM.classList current in
        if 0 <? length classes
        then selector +:+ "." +:+ JS.join "." (take 2 classes)
        else selector
      else selector
  | SVGAnimatedString _ => selector
  end.

Definition siblingIndex (current : Element) : Z :=
  let siblings :=
    match parentElement current with
    | Some p => children p
    | None => []
    end in
  JS.indexOf siblings (uid current).

Definition levelSelector (current : Element) : string :=
  let selector := classQualified current in
  let index := siblingIndex current in
  if (0 <=? index)%Z
  then selector +:+ ":nth-child(" +:+ JS.decimal (index + 1)%Z +:+ ")"
  else selector.

(** The [while (current && current !== document.body)] loop; [path] is the
    array built so far ([unshift] puts the new level in front). *)
Fixpoint selectorWalk (doc : Document) (current : Element)
    (path : list string) {struct current} : list string :=
  if uid current =? body doc then path
  else if JS.truthy (DOM.id current) then ("#" +:+ DOM.id current) :: path
  else
    let path := levelSelector current :: path in
    if 10 <? length path then path
    else
      match parentElement current with
      | Some p => selectorWalk doc p path
      | None => path
      end.

(** The levels that [generateUniqueSelector] joins when the element has
    neither an id nor a test-id nor a debug comment. *)
Definition selectorPath (doc : Document) (element : Element) : list string :=
  selectorWalk doc element [].

Definition generateUniqueSelector (doc : Document) (element : Element)
    : string :=
  if JS.truthy (DOM.id element) then "#" +:+ DOM.id element
  else
    match nonEmpty (getAttribute element "data-testid") with
    | Some testId =>
        "[data-testid=" +:+ JS.quote +:+ testId +:+ JS.quote +:+ "]"
    | None =>
        match nonEmpty (dataset_np element) with
        | Some npData =>
            "[data-np=" +:+ JS.quote +:+ npData +:+ JS.quote +:+ "]"
        | None => JS.join " > " (selectorPath doc element)
        end
    end.

(** The [while] loop of [getDomPath]. *)
Fixpoint domPathWalk (doc : Document) (current : Element)
    (path : list string) {struct current} : list string :=
  if uid current =? body doc then path
  else
    let part := JS.toLowerCase (DOM.tagName current) in
    let part :=
      if JS.truthy (DOM.id current) then part +:+ "#" +:+ DOM.id current
      else part in
    let path := part :: path in
    if 8 <? length path then path
    else
      match parentElement current with
      | Some p => domPathWalk doc p path
      | None => path
      end.

Definition getDomPath (doc : Document) (element : Element) : list string :=
  domPathWalk doc element [].

Definition extractTextContent (element : Element) : option string :=
  match DOM.textContent element with
  | None => None
  | Some raw =>
      let text := JS.trim raw in
      if negb (JS.truthy text) then None
      else if 50 <? String.length text
           then Some (JS.slice 0 47 text +:+ "...")
           else Some text
  end.

Definition getElementInfo (doc : Document) (element : Element)
    : ElementInfo :=
  {| tagName := JS.toLowerCase (DOM.tagName element);
     id := nonEmpty (Some (DOM.id element));
     classList := DOM.classList element;
     npComment := extractNPComment element;
     uniqueSelector := generateUniqueSelector doc element;
     domPath := getDomPath doc element;
     ariaLabel := nonEmpty (getAttribute element "aria-label");
     textContent := extractTextContent element;
     role := nonEmpty (getAttribute element "role");
     dataTestId := nonEmpty (getAttribute element "data-testid") |}.

End ElementInspector.

(** ** lib/types and lib/utils *)

Module Types.

Inductive AnnotationStatus := pending | in_progress | resolved | dismissed.

#[global] Instance AnnotationStatus_eq_dec : EqDecision AnnotationStatus.
Proof. solve_decision. Defined.

(** The reduced descriptor kept with an annotation
    ([DebugAnnotation.elementInfo]). *)
Record AnnotationElementInfo := mkAnnotationElementInfo {
  tagName : string;
  id : option string;
  uniqueSelector : string;
  componentName : option string;
  textContent : option string
}.

(** An annotation object as it exists at run time: the interface
    [DebugAnnotation] is not enforced there, so every property may be
    missing ([None] is [undefined]). *)
Record DebugAnnotation := mkDebugAnnotation {
  anno_id : option string;
  selector : option string;
  elementInfo : option AnnotationElementInfo;
  comment : option string;
  aiPrompt : option string;
  timestamp : option Z;
  status : option AnnotationStatus
}.

(** The object conforms to the interface [DebugAnnotation]: all
    properties but the optional [aiPrompt] are present. *)
Definition conforms (a : DebugAnnotation) : bool :=
  bool_decide (is_Some (anno_id a)) && bool_decide (is_Some (selector a))
  && bool_decide (is_Some (elementInfo a))
  && bool_decide (is_Some (comment a))
  && bool_decide (is_Some (timestamp a)) && bool_decide (is_Some (status a)).

(** The object literal with no property. *)
Definition emptyObject : DebugAnnotation :=
  mkDebugAnnotation None None None None None None None.

(** [{ ...o, status }] where [o] may be [undefined]. *)
Definition spreadWithStatus (o : option DebugAnnotation)
    (s : AnnotationStatus) : DebugAnnotation :=
  let base := default emptyObject o in
  {| anno_id := anno_id base; selector := selector base;
     elementInfo := elementInfo base; comment := comment base;
     aiPrompt := aiPrompt base; timestamp := timestamp base;
     status := Some s |}.

(** A computed property key: [undefined] becomes the string of that name. *)
Definition propertyKey (k : option string) : string :=
  default "undefined" k.

End Types.

Module Utils.

(** [generateId]; [now] is the value of [Date.now()] and [random36] the
    string [Math.random().toString(36)]. *)
Definition generateId (now : Z) (random36 : string) : string :=
  "anno-" +:+ JS.decimal now +:+ "-" +:+ JS.slice 2 9 random36.

End Utils.

(** ** components/AnnotationSystem *)

Module AnnotationSystem.
Import Types.

Definition generateAIPrompt (elementInfo : AnnotationElementInfo)
    (comment : string) : string :=
  "// #NP-DEBUG - Session-only fix request" +:+ JS.nl
  +:+ "// Element: " +:+ uniqueSelector elementInfo +:+ JS.nl
  +:+ "// React Component: "
  +:+ default "Unknown" (nonEmpty (componentName elementInfo)) +:+ JS.nl
  +:+ "// Text Content: "
  +:+ default "N/A" (nonEmpty (textContent elementInfo)) +:+ JS.nl
  +:+ JS.nl
  +:+ "// User Request:" +:+ JS.nl
  +:+ "// " +:+ comment +:+ JS.nl
  +:+ JS.nl
  +:+ "// Generated AI Task:" +:+ JS.nl
  +:+ "// Fix the behavior of the component at " +:+ JS.quote
  +:+ uniqueSelector elementInfo +:+ JS.quote +:+ "." +:+ JS.nl
  +:+ "// Current issue: " +:+ comment +:+ JS.nl
  +:+ "// Expected behavior: [To be implemented]" +:+ JS.nl
  +:+ JS.nl
  +:+ "/* #NP-DEBUG-START" +:+ JS.nl
  +:+ "This is a session-only annotation. Changes should be tested in current session"
  +:+ JS.nl
  +:+ "before committing to main codebase." +:+ JS.nl
  +:+ "#NP-DEBUG-END */".

(** What the dialog reads from outside when the user saves: the two
    readings of the clock and the random string of [generateId]. *)
Record SaveEnv := mkSaveEnv {
  idNow : Z;
  idRandom36 : string;
  stampNow : Z
}.

(** The dialog's memoised prompt. *)
Definition dialogPrompt (elementInfo : AnnotationElementInfo)
    (comment : string) : string :=
  if JS.truthy comment then generateAIPrompt elementInfo comment
  else EmptyString.

(** [handleSave] of the dialog: the annotation handed to [onSave], or
    [None] when it returns early on a blank comment. *)
Definition handleSave (env : SaveEnv) (elementInfo : AnnotationElementInfo)
    (comment : string) : option DebugAnnotation :=
  if negb (JS.truthy (JS.trim comment)) then None
  else Some
    {| anno_id := Some (Utils.generateId (idNow env) (idRandom36 env));
       selector := Some (uniqueSelector elementInfo);
       elementInfo := Some elementInfo;
       comment := Some comment;
       aiPrompt := Some (dialogPrompt elementInfo comment);
       timestamp := Some (stampNow env);
       status := Some pending |}.

(** The selector the click handler computes for its target. *)
Definition clickSelector (target : DOM.Element) : string :=
  if JS.truthy (DOM.id target) then "#" +:+ DOM.id target
  else
    JS.toLowerCase (DOM.tagName target)
    +:+ (if DOM.classNameTruthy target
         then "." +:+ JS.join "." (take 2 (DOM.classList target))
         else EmptyString).

(** The component state the click handler writes. *)
Record DialogState := mkDialogState {
  dialogElement : option DOM.Element;
  dialogElementInfo : option AnnotationElementInfo
}.

(** [handleClick]; [target] is [e.target]. *)
Definition handleClick (enabled : bool) (target : option DOM.Element)
    (st : DialogState) : DialogState :=
  if negb enabled then st
  else
    match target with
    | None => st
    | Some target =>
        if DOM.closestDebugAnnotation target then st
        else
          let elementInfo :=
            {| tagName := JS.toLowerCase (DOM.tagName target);
               id := nonEmpty (Some (DOM.id target));
               uniqueSelector := clickSelector target;
               componentName := None;
               textContent :=
                 nonEmpty (JS.slice 0 50 <$> (JS.trim <$> DOM.textContent target)) |} in
          {| dialogElement := Some target;
             dialogElementInfo := Some elementInfo |}
    end.

(** [handleSaveAnnotation]: the updater given to [setAnnotations] applied
    to the stored mapping [prev]; the result is the new mapping together
    with the count passed to [onAnnotationCountChange]. *)
Definition handleSaveAnnotation (prev : gmap string DebugAnnotation)
    (annotation : DebugAnnotation) : gmap string DebugAnnotation * nat :=
  let next := <[propertyKey (anno_id annotation) := annotation]> prev in
  (next, size next).

(** Click on [target], type [comment], press save: the mapping that
    results, or [None] when no dialog opens or the comment is blank. *)
Definition annotate (env : SaveEnv) (enabled : bool) (target : DOM.Element)
    (comment : string) (prev : gmap string DebugAnnotation)
    : option (gmap string DebugAnnotation) :=
  let st := handleClick enabled (Some target) (mkDialogState None None) in
  match dialogElement st, dialogElementInfo st with
  | Some _, Some info =>
      if enabled then
        (fun a => fst (handleSaveAnnotation prev a)) <$> handleSave env info comment
      else None
  | _, _ => None
  end.

End AnnotationSystem.

(** ** components/AnnotationsDashboard *)

Module AnnotationsDashboard.
Import Types.

(** [Array.prototype.sort(comparefn)].  The comparator's result is a
    number, [None] standing for NaN, which the sort reads as [+0].  The
    sort is stable, so with a consistent comparator its result is the one
    computed here by insertion from the right: an element moves behind
    exactly the later elements that must come before it. *)
Section Sort.
Context {A : Type} (comparefn : A → A → option Z).

Definition sortCompare (x y : A) : Z := default 0%Z (comparefn x y).

Fixpoint sortInsert (x : A) (l : list A) : list A :=
  match l with
  | [] => [x]
  | y :: l' =>
      if (0 <? sortCompare x y)%Z then y :: sortInsert x l'
      else x :: l
  end.

Fixpoint Array_sort (l : list A) : list A :=
  match l with
  | [] => []
  | x :: l' => sortInsert x (Array_sort l')
  end.
End Sort.

(** [Object.values]: the values of the mapping.  JavaScript enumerates them
    in the order in which the properties were created; here the order is
    that of the map's representation.  The dashboard sorts the list before
    it uses it, so the two can differ only in the order of entries with
    equal time stamps. *)
Definition Object_values (annotations : gmap string DebugAnnotation)
    : list DebugAnnotation :=
  (map_to_list annotations).*2.

Inductive FilterOption := all | only (s : AnnotationStatus).

(** [(a, b) => b.timestamp - a.timestamp]. *)
Definition byTimestampDesc (a b : DebugAnnotation) : option Z :=
  match timestamp b, timestamp a with
  | Some tb, Some ta => Some (tb - ta)%Z
  | _, _ => None
  end.

Definition hasStatus (s : AnnotationStatus) (a : DebugAnnotation) : bool :=
  bool_decide (status a = Some s).

Definition annotationList (annotations : gmap string DebugAnnotation)
    (filter : FilterOption) : list DebugAnnotation :=
  let list := Array_sort byTimestampDesc (Object_values annotations) in
  match filter with
  | all => list
  | only s => List.filter (hasStatus s) list
  end.

Record Counts := mkCounts {
  count_all : nat;
  count_pending : nat;
  count_in_progress : nat;
  count_resolved : nat;
  count_dismissed : nat
}.

Definition counts (annotations : gmap string DebugAnnotation) : Counts :=
  let all := Object_values annotations in
  {| count_all := length all;
     count_pending := length (List.filter (hasStatus pending) all);
     count_in_progress := length (List.filter (hasStatus in_progress) all);
     count_resolved := length (List.filter (hasStatus resolved) all);
     count_dismissed := length (List.filter (hasStatus dismissed) all) |}.

(** What a handler does to the outside: calls of the props
    [onUpdateAnnotations] and [onToast], in order. *)
Inductive Effect :=
  | UpdateAnnotations (next : gmap string DebugAnnotation)
  | Toast (message : string) (description : option string).

Definition updateStatus (annotations : gmap string DebugAnnotation)
    (id : string) (status : AnnotationStatus) : list Effect :=
  [UpdateAnnotations
     (<[id := spreadWithStatus (annotations !! id) status]> annotations)].

(** The [onChange] handler of an entry's status menu:
    [updateStatus(anno.id, value)]. *)
Definition statusSelected (annotations : gmap string DebugAnnotation)
    (anno : DebugAnnotation) (value : AnnotationStatus) : list Effect :=
  updateStatus annotations (propertyKey (anno_id anno)) value.

Definition deleteAnnotation (annotations : gmap string DebugAnnotation)
    (id : string) : list Effect :=
  let next := delete id annotations in
  [UpdateAnnotations next; Toast "Annotation deleted" None].

(** [clearAll]; [confirmed] is the answer of [confirm(...)]. *)
Definition clearAll (confirmed : bool) : list Effect :=
  if negb confirmed then []
  else [UpdateAnnotations ∅; Toast "All annotations cleared" None].

(** The owner of the mapping: [onUpdateAnnotations] replaces the stored
    mapping, a toast leaves it alone. *)
Definition applyEffect (store : gmap string DebugAnnotation) (e : Effect)
    : gmap string DebugAnnotation :=
  match e with
  | UpdateAnnotations next => next
  | Toast _ _ => store
  end.

Definition run (store : gmap string DebugAnnotation) (effects : list Effect)
    : gmap string DebugAnnotation :=
  foldl applyEffect store effects.

(** The property reads [anno.elementInfo.uniqueSelector] that the list
    view and the markdown export make for every entry; [None] is the
    TypeError raised on an entry without [elementInfo]. *)
Definition entrySelectors (l : list DebugAnnotation) : option (list string) :=
  mapM (fun anno => uniqueSelector <$> elementInfo anno) l.

End AnnotationsDashboard.

(** ** Concrete documents and mappings used by the examples below *)

Module Examples.
Import DOM Types.

Definition plain (uid : nat) (tag : string) (id : string)
    (children : list nat) (parent : option Element) : Element :=
  mkElement uid tag id (DOMString EmptyString) [] ∅ None children parent.

(** [<html>] (identity 0) holds [<body>] (identity 1). *)
Definition htmlEl : Element := plain 0 "HTML" EmptyString [1] None.
Definition bodyEl : Element := plain 1 "BODY" EmptyString [2] (Some htmlEl).
Definition doc : Document := mkDocument 1.

(** [nestedDiv n]: the innermost of [n] nested [<div>]s below the body,
    none with an id or a class; the div at depth [k] has identity [k + 1]
    and a single child. *)
Fixpoint nestedDiv (n : nat) : Element :=
  match n with
  | 0 => bodyEl
  | S k => plain (S n) "DIV" EmptyString [S (S n)] (Some (nestedDiv k))
  end.

(** [<body><div id="root"><p></p><span></span></div></body>]: the span. *)
Definition rootDiv : Element := plain 2 "DIV" "root" [3; 4] (Some bodyEl).
Definition spanInRoot : Element := plain 4 "SPAN" EmptyString [] (Some rootDiv).

(** [<body><div id="outer"><div id="inner"><span></span></div></div></body>]:
    the span. *)
Definition outerDiv : Element := plain 2 "DIV" "outer" [3] (Some bodyEl).
Definition innerDiv : Element := plain 3 "DIV" "inner" [4] (Some outerDiv).
Definition spanInInner : Element :=
  plain 4 "SPAN" EmptyString [] (Some innerDiv).

(** [<body><div class="card wide big">Hello</div></body>]. *)
Definition cardDiv : Element :=
  mkElement 2 "DIV" EmptyString (DOMString "card wide big")
    ["card"; "wide"; "big"] ∅ (Some "  Hello ") [] (Some bodyEl).

(** [<button id="submit-btn" class="btn" data-testid="go">]. *)
Definition submitBtn : Element :=
  mkElement 2 "BUTTON" "submit-btn" (DOMString "btn") ["btn"]
    {[ "data-testid" := "go" ]} (Some "Send") [] (Some bodyEl).

(** An element whose text is sixty letters long, and one without text. *)
Definition sixty : string :=
  "abcdefghijklmnopqrstuvwxyzabcdefghijklmnopqrstuvwxyzabcdefgh".
Definition longText : Element :=
  mkElement 2 "P" EmptyString (DOMString EmptyString) [] ∅
    (Some (" " +:+ sixty +:+ " ")) [] (Some bodyEl).
Definition imgEl : Element :=
  mkElement 2 "IMG" EmptyString (DOMString EmptyString) [] ∅
    (Some EmptyString) [] (Some bodyEl).

Definition info1 : AnnotationElementInfo :=
  mkAnnotationElementInfo "button" (Some "submit-btn") "#submit-btn" None
    (Some "Send").

Definition anno (id : string) (t : Z) (s : AnnotationStatus)
    : DebugAnnotation :=
  mkDebugAnnotation (Some id) (Some "#submit-btn") (Some info1)
    (Some "button should be disabled") (Some EmptyString) (Some t) (Some s).

Definition store3 : gmap string DebugAnnotation :=
  <["anno-3" := anno "anno-3" 30 resolved]>
    (<["anno-1" := anno "anno-1" 10 pending]>
       (<["anno-2" := anno "anno-2" 20 pending]> ∅)).

(** A mapping whose only entry is stored under a key that is not the
    entry's own id. *)
Definition storeSlot : gmap string DebugAnnotation :=
  <["slot-1" := anno "anno-1" 10 pending]> ∅.

Definition env1 : AnnotationSystem.SaveEnv :=
  AnnotationSystem.mkSaveEnv 1700000000000 "0.k3j2h4g5f6d7" 1700000000001.

End Examples.

(** ** Notions used in the statements *)

Module Notions.
Import DOM Types.

(** The element's trimmed text; an element without text content has none. *)
Definition trimmedText (element : Element) : string :=
  default EmptyString (JS.trim <$> DOM.textContent element).

(** [a] may stand before [b] in a list sorted by descending creation time:
    both carry a time stamp and [a]'s is not the older one. *)
Definition newestFirst (a b : DebugAnnotation) : Prop :=
  ∃ ta tb, timestamp a = Some ta ∧ timestamp b = Some tb ∧ (tb ≤ ta)%Z.

(** The element followed by its parent, grandparent and so on. *)
Fixpoint ancestorsOrSelf (e : Element) : list Element :=
  e :: match parentElement e with
       | Some p => ancestorsOrSelf p
       | None => []
       end.

(** The entry of the tag path for one element: [tag] or [tag#id]. *)
Definition domPart (el : Element) : string :=
  JS.toLowerCase (DOM.tagName el)
  +:+ (if JS.truthy (DOM.id el) then "#" +:+ DOM.id el else EmptyString).

(** The level that the walk records for one element. *)
Definition selectorLevel (el : Element) : string :=
  if JS.truthy (DOM.id el) then "#" +:+ DOM.id el
  else ElementInspector.levelSelector el.

(** The chain of elements has no element at position [k], or that element
    is the document body: a walk that has taken [k] elements can go no
    further. *)
Definition chainEnds (doc : Document) (chain : list Element) (k : nat) : Prop :=
  chain !! k = None ∨ ∃ b, chain !! k = Some b ∧ uid b = body doc.

(** Why the selector walk has stopped after [k] elements with [n] levels
    recorded: eleven levels are recorded, or the last element walked has an
    id, or the chain ends. *)
Definition selectorWalkStops (doc : Document) (chain : list Element)
    (k n : nat) : Prop :=
  n = 11
  ∨ (∃ el, 1 ≤ k ∧ chain !! (k - 1) = Some el ∧ DOM.id el ≠ EmptyString)
  ∨ chainEnds doc chain k.

(** The selector walk over [chain] records the first [k] elements: at most
    eleven, none of them the document body, none but the last with an id,
    and after them the walk has a reason to stop. *)
Definition selectorWalkTakes (doc : Document) (chain : list Element)
    (k : nat) : Prop :=
  k ≤ 11
  ∧ Forall (λ el, uid el ≠ body doc) (take k chain)
  ∧ Forall (λ el, DOM.id el = EmptyString) (take (k - 1) chain)
  ∧ selectorWalkStops doc chain k k.

(** No code unit of the string is a space. *)
Fixpoint noSpace (s : string) : bool :=
  match s with
  | EmptyString => true
  | String c s' => negb (Ascii.eqb c " ") && noSpace s'
  end.

(** The names that go into a level are free of spaces (as tag names and
    class tokens always are, and ids of valid documents). *)
Definition spaceFreeNames (el : Element) : Prop :=
  noSpace (DOM.tagName el) = true ∧ noSpace (DOM.id el) = true
  ∧ Forall (λ c, noSpace c = true) (DOM.classList el).

(** The element lies inside the document body: it is not the body, its
    parent lists it among its children, and the parent is the body or lies
    inside the body itself. *)
Fixpoint insideBody (doc : Document) (e : Element) : bool :=
  negb (uid e =? body doc)
  && match parentElement e with
     | Some p =>
         bool_decide (uid e ∈ children p)
         && ((uid p =? body doc) || insideBody doc p)
     | None => false
     end.

(** [level] is the element's tag and classes followed by [:nth-child(i)],
    [i] being the 1-based position of the element among the children of its
    parent. *)
Definition nthChildLevel (level : string) (el : Element) : Prop :=
  ∃ p i,
    parentElement el = Some p
    ∧ children p !! i = Some (uid el)
    ∧ (∀ j, j < i → children p !! j ≠ Some (uid el))
    ∧ level = ElementInspector.classQualified el
              +:+ ":nth-child(" +:+ JS.decimal (Z.of_nat i + 1) +:+ ")".

(** A level is either the [#id] of an element that has an id or an
    nth-child-qualified level of an element that has none. *)
Definition levelShape (level : string) (el : Element) : Prop :=
  (DOM.id el ≠ EmptyString ∧ level = "#" +:+ DOM.id el)
  ∨ (DOM.id el = EmptyString ∧ nthChildLevel level el).

End Notions.

(** ** Further code: number formatting, the fiber walk, the inspector
       component, the badge counts and the cold reload *)

Module JSNumber.

(** [Number.isSafeInteger]: an integer of magnitude below 2^53. *)
Definition isSafeInteger (z : Z) : bool :=
  (- 2 ^ 53 <? z)%Z && (z <? 2 ^ 53)%Z.

(** The integers among the numbers of the model.  A double holds every safe
    integer exactly, and a template literal prints it in plain decimal
    digits, with a leading [-] below zero.  Fractions, NaN, the infinities
    and larger magnitudes (printed with an exponent from 1e21 on) are not
    covered. *)
Record SafeInteger := mkSafeInteger {
  valueOf : Z;
  valueOf_safe : isSafeInteger valueOf = true
}.

(** The number [numerator / 2 ^ log2den]: a safe integer halved at most 64
    times.  A double holds each of these exactly, and each is below 2^53,
    hence below 1e21, in magnitude. *)
Record Dyadic := mkDyadic {
  numerator : Z;
  log2den : N;
  dyadic_exact : isSafeInteger numerator && (log2den <=? 64)%N = true
}.

(** [n / 2 ^ e] for a safe integer [n] and [e <= 64]: dividing a double by
    a power of two changes its exponent only, so the quotient is exact. *)
Definition divPow2 (n : SafeInteger) (e : N) (He : (e <=? 64)%N = true)
    : Dyadic :=
  mkDyadic (valueOf n) e
    (andb_true_intro (conj (valueOf_safe n) He)).

(** [x.toFixed(1)]: the sign, then the integer [n] for which [n / 10] is
    closest to the magnitude of [x], the larger one of two, printed with
    one digit behind the point. *)
Definition toFixed1 (x : Dyadic) : string :=
  let den := (2 ^ Z.of_N (log2den x))%Z in
  let n := ((2 * 10 * Z.abs (numerator x) + den) / (2 * den))%Z in
  (if (numerator x <? 0)%Z then "-" else EmptyString)
  +:+ JS.decimal (n / 10)%Z +:+ "." +:+ JS.decimal (n mod 10)%Z.

End JSNumber.

Module UtilsFormat.
Import JSNumber.

(** [formatBytes] of [lib/utils] on a safe integer number of bytes;
    [1024] is [2 ^ 10] and [1024 * 1024] is [2 ^ 20]. *)
Definition formatBytes (bytes : SafeInteger) : string :=
  if (valueOf bytes <? 1024)%Z then JS.decimal (valueOf bytes) +:+ " B"
  else if (valueOf bytes <? 1024 * 1024)%Z
       then toFixed1 (divPow2 bytes 10 eq_refl) +:+ " KB"
       else toFixed1 (divPow2 bytes 20 eq_refl) +:+ " MB".

End UtilsFormat.

Module ReactFiber.

(** What [fiber.type] can be: nothing, the tag string of a host element, or
    a function, class or exotic component object with its [displayName] and
    [name] properties. *)
Inductive FiberType :=
  | NoType
  | HostType (tag : string)
  | ComponentType (displayName name : option string).

#[local] Unset Elimination Schemes.
Inductive Fiber := mkFiber {
  fiberType : FiberType;
  fiberReturn : option Fiber
}.
#[local] Set Elimination Schemes.

(** [fiber.type?.displayName || fiber.type?.name]; a string has neither
    property. *)
Definition typeName (t : FiberType) : option string :=
  match t with
  | NoType => None
  | HostType _ => None
  | ComponentType displayName name =>
      match nonEmpty displayName with
      | Some d => Some d
      | None => name
      end
  end.

(** The test of the loop:
    [name && !name.startsWith('_') && name !== 'div' && name !== 'span']. *)
Definition acceptedName (name : option string) : option string :=
  match nonEmpty name with
  | Some n =>
      if negb (String.prefix "_" n) && negb (String.eqb n "div")
         && negb (String.eqb n "span")
      then Some n else None
  | None => None
  end.

(** The [while (fiber)] loop. *)
Fixpoint fiberWalk (fiber : Fiber) : option string :=
  match acceptedName (typeName (fiberType fiber)) with
  | Some name => Some name
  | None =>
      match fiberReturn fiber with
      | Some f => fiberWalk f
      | None => None
      end
  end.

Definition isFiberKey (key : string) : bool :=
  String.prefix "__reactFiber$" key
  || String.prefix "__reactInternalInstance$" key.

(** [getReactFiberName]; [ownProperties] are the element's own enumerable
    properties in the order of [Object.keys], each with its value ([None]
    for [null] or [undefined]). *)
Definition getReactFiberName (ownProperties : list (string * option Fiber))
    : option string :=
  match List.find (λ kv, isFiberKey kv.1) ownProperties with
  | None => None
  | Some (_, fiber) =>
      match fiber with
      | Some f => fiberWalk f
      | None => None
      end
  end.

End ReactFiber.

Module InspectorComponent.
Import DOM.

(** The page: the document and the identity of [document.documentElement]. *)
Record Page := mkPage { document : Document; documentElement : nat }.

(** [el.closest('[data-debug-inspector]')] as a truth value. *)
Fixpoint closestDebugInspector (e : Element) : bool :=
  bool_decide (is_Some (getAttribute e "data-debug-inspector"))
  || match parentElement e with
     | Some p => closestDebugInspector p
     | None => false
     end.

(** The component's state; the tooltip position, which nothing else reads,
    is left out. *)
Record State := mkState {
  hoveredElement : option Element;
  elementInfo : option ElementInspector.ElementInfo
}.

(** [elementsAtPoint.find(...)]: the topmost element that is neither inside
    the inspector's own overlay nor the root element nor the body. *)
Definition findTarget (page : Page) (elementsAtPoint : list Element)
    : option Element :=
  List.find
    (λ el, negb (closestDebugInspector el)
           && negb (uid el =? documentElement page)
           && negb (uid el =? body (document page)))
    elementsAtPoint.

(** [targetElement !== hoveredElement]. *)
Definition differs (target : Element) (hovered : option Element) : bool :=
  match hovered with
  | Some h => negb (uid target =? uid h)
  | None => true
  end.

Definition handleMouseMove (enabled : bool) (page : Page)
    (elementsAtPoint : list Element) (st : State) : State :=
  if negb enabled then st
  else
    match findTarget page elementsAtPoint with
    | Some targetElement =>
        if differs targetElement (hoveredElement st)
        then {| hoveredElement := Some targetElement;
                elementInfo :=
                  Some (ElementInspector.getElementInfo (document page)
                          targetElement) |}
        else st
    | None => st
    end.

(** What a click does: nothing, or the default action is prevented and the
    tracked element is handed to [onElementSelect] with its descriptor. *)
Inductive ClickOutcome :=
  | Ignored
  | Selected (element : Element) (info : ElementInspector.ElementInfo).

Definition handleClick (enabled : bool) (st : State) : ClickOutcome :=
  if negb enabled then Ignored
  else
    match hoveredElement st, elementInfo st with
    | Some hovered, Some info => Selected hovered info
    | _, _ => Ignored
    end.

(** [handleKeyDown]: the new state and whether [onDisable] is called. *)
Definition handleKeyDown (enabled : bool) (key : string) (st : State)
    : State * bool :=
  if String.eqb key "Escape" && enabled
  then ({| hoveredElement := None; elementInfo := None |}, true)
  else (st, false).

(** The component with its [enabled] prop.  [onDisable] is wired as in
    [DebugOverlay]: it switches the inspector off; the effect that follows
    a change of [enabled] clears the state when the inspector is off. *)
Record Component := mkComponent { enabled : bool; state : State }.

Inductive Event :=
  | MouseMove (elementsAtPoint : list Element)
  | Click
  | KeyDown (key : string)
  | SetEnabled (value : bool).

Definition cleared : State := {| hoveredElement := None; elementInfo := None |}.

Definition setEnabled (value : bool) (c : Component) : Component :=
  {| enabled := value; state := if negb value then cleared else state c |}.

Definition step (page : Page) (c : Component) (e : Event) : Component :=
  match e with
  | MouseMove elementsAtPoint =>
      {| enabled := enabled c;
         state := handleMouseMove (enabled c) page elementsAtPoint (state c) |}
  | Click => c
  | KeyDown key =>
      let '(st, disable) := handleKeyDown (enabled c) key (state c) in
      if disable then setEnabled false {| enabled := enabled c; state := st |}
      else {| enabled := enabled c; state := st |}
  | SetEnabled value => setEnabled value c
  end.

Definition run (page : Page) (c : Component) (events : list Event)
    : Component :=
  foldl (step page) c events.

Definition mount (enabled : bool) : Component :=
  {| enabled := enabled; state := cleared |}.

End InspectorComponent.

Module AnnotationBadges.
Import Types.

(** [annotationCounts] of [AnnotationSystem]: a [Map] from selector to the
    number of annotations that carry it.  A key of the [Map] is the value
    of [anno.selector] as it is, [None] for [undefined]. *)
Definition countOne (counts : gmap (option string) nat) (anno : DebugAnnotation)
    : gmap (option string) nat :=
  let count := default 0 (counts !! selector anno) in
  <[selector anno := count + 1]> counts.

Definition annotationCounts (annotations : gmap string DebugAnnotation)
    : gmap (option string) nat :=
  foldl countOne ∅ (AnnotationsDashboard.Object_values annotations).

End AnnotationBadges.

Module ColdReload.

(** The cold-reload button of [DebugOverlay].  [timers] are the live
    intervals, each with the [progress] variable of its closure; [ref] is
    [coldReloadTimeoutRef.current]; [reloads] counts the calls of
    [window.location.reload()].  Interval handles are positive. *)
Record State := mkState {
  coldReloadActive : bool;
  coldReloadProgress : nat;
  ref : option nat;
  timers : gmap nat nat;
  nextHandle : nat;
  reloads : nat
}.

Inductive Event :=
  | Start            (* mouse down on the button *)
  | Cancel           (* mouse up or mouse leave *)
  | Tick (handle : nat).  (* the interval [handle] fires *)

Definition handleColdReloadStart (st : State) : State :=
  let interval := nextHandle st in
  {| coldReloadActive := true;
     coldReloadProgress := coldReloadProgress st;
     ref := Some interval;
     timers := <[interval := 0]> (timers st);
     nextHandle := S interval;
     reloads := reloads st |}.

Definition handleColdReloadCancel (st : State) : State :=
  {| coldReloadActive := false;
     coldReloadProgress := 0;
     ref := None;
     timers := match ref st with
               | Some interval => delete interval (timers st)
               | None => timers st
               end;
     nextHandle := nextHandle st;
     reloads := reloads st |}.

(** One firing of the interval's callback; an interval that was cleared
    fires no more. *)
Definition tick (handle : nat) (st : State) : State :=
  match timers st !! handle with
  | None => st
  | Some progress =>
      let progress := progress + 10 in
      {| coldReloadActive := coldReloadActive st;
         coldReloadProgress := progress;
         ref := ref st;
         timers := if 100 <=? progress then delete handle (timers st)
                   else <[handle := progress]> (timers st);
         nextHandle := nextHandle st;
         reloads := if 100 <=? progress then S (reloads st) else reloads st |}
  end.

Definition step (st : State) (e : Event) : State :=
  match e with
  | Start => handleColdReloadStart st
  | Cancel => handleColdReloadCancel st
  | Tick handle => tick handle st
  end.

Definition run (st : State) (events : list Event) : State :=
  foldl step st events.

(** The state after mounting: nothing held, no interval, the first handle
    to be given out is 1. *)
Definition initial : State :=
  {| coldReloadActive := false; coldReloadProgress := 0; ref := None;
     timers := ∅; nextHandle := 1; reloads := 0 |}.

End ColdReload.

Module MoreNotions.
Import DOM.

(** The fiber followed by the fibers reached through [return]. *)
Fixpoint fiberChain (f : ReactFiber.Fiber) : list ReactFiber.Fiber :=
  f :: match ReactFiber.fiberReturn f with
       | Some g => fiberChain g
       | None => []
       end.

(** A component name that the fiber walk may return: not empty, not
    starting with an underscore, neither [div] nor [span]. *)
Definition publicName (n : string) : Prop :=
  n ≠ EmptyString ∧ String.prefix "_" n = false ∧ n ≠ "div" ∧ n ≠ "span".

(** What the inspector tracks: nothing at all, or, while it is enabled, an
    element that is neither the body nor the root element nor inside the
    inspector's own overlay, together with the descriptor computed for
    it. *)
Definition tracked (page : InspectorComponent.Page)
    (c : InspectorComponent.Component) : Prop :=
  match InspectorComponent.hoveredElement (InspectorComponent.state c),
        InspectorComponent.elementInfo (InspectorComponent.state c) with
  | None, None => True
  | Some e, Some info =>
      InspectorComponent.enabled c = true
      ∧ info = ElementInspector.getElementInfo
                 (InspectorComponent.document page) e
      ∧ uid e ≠ body (InspectorComponent.document page)
      ∧ uid e ≠ InspectorComponent.documentElement page
      ∧ InspectorComponent.closestDebugInspector e = false
  | _, _ => False
  end.

(** An overlay element on top of a card, for the examples. *)
Definition overlayTip : Element :=
  mkElement 9 "DIV" EmptyString (DOMString EmptyString) []
    {[ "data-debug-inspector" := EmptyString ]} None [] (Some Examples.bodyEl).

Definition page1 : InspectorComponent.Page :=
  InspectorComponent.mkPage Examples.doc 0.

(** A fiber chain [div] - [_Internal] - [Card] - [App]. *)
Definition appFiber : ReactFiber.Fiber :=
  ReactFiber.mkFiber
    (ReactFiber.ComponentType None (Some "App")) None.
Definition cardFiber : ReactFiber.Fiber :=
  ReactFiber.mkFiber
    (ReactFiber.ComponentType (Some "Card") (Some "CardImpl")) (Some appFiber).
Definition internalFiber : ReactFiber.Fiber :=
  ReactFiber.mkFiber
    (ReactFiber.ComponentType None (Some "_Internal")) (Some cardFiber).
Definition hostFiber : ReactFiber.Fiber :=
  ReactFiber.mkFiber (ReactFiber.HostType "div") (Some internalFiber).

End MoreNotions.

(** * Properties *)

Import DOM Types Notions MoreNotions.

(** ** Strings *)

Lemma string_length_app (s t : string) :
  String.length (s +:+ t) = String.length s + String.length t.
Proof.
  induction s as [|c s IH]; [reflexivity|].
  change (String c s +:+ t) with (String c (s +:+ t)). cbn. now rewrite IH.
Qed.

Lemma string_length_substring (n : nat) (s : string) :
  n ≤ String.length s → String.length (String.substring 0 n s) = n.
Proof.
  revert s. induction n as [|n IH]; intros [|c s] Hn; cbn in *;
    try reflexivity; try lia.
  rewrite IH; lia.
Qed.

Lemma truthy_false (s : string) : JS.truthy s = false ↔ s = EmptyString.
Proof. destruct s; cbn; split; congruence. Qed.

Lemma truthy_true (s : string) : JS.truthy s = true ↔ s ≠ EmptyString.
Proof. destruct s; cbn; split; congruence. Qed.

(** ** The selector generator *)

Section Selector.
Import ElementInspector.

(** C2: an element with a non-empty id gets the selector [#<id>], whatever
  its ancestors, classes, test-id or debug-comment attributes are. *)
Theorem generateUniqueSelector_id (doc : Document) (element : Element) :
DOM.id element ≠ EmptyString →
generateUniqueSelector doc element = "#" +:+ DOM.id element.
Proof.
intros Hid. unfold generateUniqueSelector.
apply truthy_true in Hid. now rewrite Hid.
Qed.

Lemma generateUniqueSelector_id_witness :
DOM.id Examples.submitBtn ≠ EmptyString
∧ generateUniqueSelector Examples.doc Examples.submitBtn = "#submit-btn".
Proof.
split; [discriminate|].
apply (generateUniqueSelector_id Examples.doc Examples.submitBtn).
discriminate.
Defined.

End Selector.

(** ** The descriptor's text content *)

Section TextContent.
Import ElementInspector.

Lemma extractTextContent_cases (element : Element) :
  let text := trimmedText element in
  extractTextContent element =
    if negb (JS.truthy text) then None
    else if 50 <? String.length text
         then Some (JS.slice 0 47 text +:+ "...")
         else Some text.
Proof.
  unfold trimmedText, extractTextContent.
  destruct (DOM.textContent element) as [raw|]; reflexivity.
Qed.

Lemma truncated_length (text : string) :
  50 < String.length text →
  String.length (JS.slice 0 47 text +:+ "...") = 50.
Proof.
  intros Hlen. rewrite string_length_app. unfold JS.slice.
  rewrite string_length_substring by lia. reflexivity.
Qed.

(** C9: the descriptor's text content is the element's trimmed text
    unchanged when that text has at most 50 code units (an empty text is
    recorded as an absent field); a longer text is cut to its first 47 code
    units followed by the ellipsis marker ["..."]; the recorded string never
    has more than 50 code units. *)
Theorem textContent_bounded (doc : Document) (element : Element) :
  let text := trimmedText element in
  let recorded := textContent (getElementInfo doc element) in
  (String.length text ≤ 50 → default EmptyString recorded = text)
  ∧ (text ≠ EmptyString → String.length text ≤ 50 → recorded = Some text)
  ∧ (50 < String.length text →
       recorded = Some (JS.slice 0 47 text +:+ "...")
       ∧ String.length (JS.slice 0 47 text +:+ "...") = 50)
  ∧ (∀ s, recorded = Some s → String.length s ≤ 50).
Proof.
  cbn zeta. change (textContent (getElementInfo doc element))
    with (extractTextContent element).
  rewrite extractTextContent_cases. cbn zeta.
  destruct (JS.truthy (trimmedText element)) eqn:Ht; cbn [negb].
  - apply truthy_true in Ht.
    destruct (Nat.ltb_spec 50 (String.length (trimmedText element))) as [Hl|Hl].
    + split; [lia|]. split; [lia|]. split.
      * intros _. split; [reflexivity | now apply truncated_length].
      * intros s [= <-]. rewrite truncated_length; lia.
    + split; [reflexivity|]. split; [reflexivity|]. split; [lia|].
      intros s [= <-]. exact Hl.
  - apply truthy_false in Ht. rewrite Ht. cbn.
    split; [reflexivity|]. split; [congruence|]. split; [lia|]. discriminate.
Qed.

Lemma textContent_bounded_witness :
  textContent (getElementInfo Examples.doc Examples.cardDiv) = Some "Hello"
  ∧ textContent (getElementInfo Examples.doc Examples.longText)
    = Some "abcdefghijklmnopqrstuvwxyzabcdefghijklmnopqrstu..."
  ∧ textContent (getElementInfo Examples.doc Examples.imgEl) = None.
Proof.
  split; [|split].
  - apply (textContent_bounded Examples.doc Examples.cardDiv);
      [discriminate | vm_compute; lia].
  - apply (textContent_bounded Examples.doc Examples.longText).
    vm_compute; lia.
  - reflexivity.
Defined.

End TextContent.

(** ** The annotation store *)

Section Store.
Import AnnotationSystem AnnotationsDashboard.

Lemma run_deleteAnnotation (store annotations : gmap string DebugAnnotation)
    (id : string) :
  run store (deleteAnnotation annotations id) = delete id annotations.
Proof. reflexivity. Qed.

Lemma run_updateStatus (store annotations : gmap string DebugAnnotation)
    (id : string) (s : AnnotationStatus) :
  run store (updateStatus annotations id s)
  = <[id := spreadWithStatus (annotations !! id) s]> annotations.
Proof. reflexivity. Qed.

(** C7: deleting an id a second time, from the mapping the first deletion
    left, changes nothing more; deleting an id that is absent leaves the
    mapping as it was. *)
Theorem deleteAnnotation_idempotent (annotations : gmap string DebugAnnotation)
    (id : string) :
  let once := run annotations (deleteAnnotation annotations id) in
  run once (deleteAnnotation once id) = once
  ∧ once !! id = None
  ∧ (annotations !! id = None → once = annotations).
Proof.
  cbn zeta. rewrite !run_deleteAnnotation. split; [|split].
  - apply delete_delete_eq.
  - apply lookup_delete_eq.
  - apply delete_id.
Qed.

Lemma deleteAnnotation_idempotent_witness :
  Examples.store3 !! "anno-9" = None
  ∧ run Examples.store3 (deleteAnnotation Examples.store3 "anno-9")
    = Examples.store3.
Proof.
  split; [reflexivity|].
  apply (deleteAnnotation_idempotent Examples.store3 "anno-9"). reflexivity.
Defined.

(** C6: when the dialog saves (the comment is not blank), the annotation it
    hands over has a generated id, the selector and descriptor of the
    dialog, the comment, the prompt, the time stamp read from the clock, and
    status [pending]; after [handleSaveAnnotation] the mapping holds exactly
    that annotation under its id, and the notified count is the size of the
    new mapping. *)
Theorem save_then_read (env : SaveEnv) (info : AnnotationElementInfo)
    (text : string) (prev : gmap string DebugAnnotation) :
  JS.trim text ≠ EmptyString →
  ∃ a key,
    handleSave env info text = Some a
    ∧ anno_id a = Some key
    ∧ (handleSaveAnnotation prev a).1 !! key = Some a
    ∧ (handleSaveAnnotation prev a).2 = size (handleSaveAnnotation prev a).1
    ∧ key = Utils.generateId (idNow env) (idRandom36 env)
    ∧ selector a = Some (uniqueSelector info)
    ∧ elementInfo a = Some info
    ∧ comment a = Some text
    ∧ aiPrompt a = Some (dialogPrompt info text)
    ∧ timestamp a = Some (stampNow env)
    ∧ status a = Some pending.
Proof.
  intros Hblank. apply truthy_true in Hblank.
  unfold handleSave. rewrite Hblank. cbn [negb].
  eexists _, _. split; [reflexivity|]. cbn.
  split; [reflexivity|]. split; [apply lookup_insert_eq|].
  repeat split.
Qed.

Lemma save_then_read_witness :
  ∃ a key,
    handleSave Examples.env1 Examples.info1 "button should be disabled" = Some a
    ∧ anno_id a = Some key
    ∧ (handleSaveAnnotation Examples.store3 a).1 !! key = Some a
    ∧ (handleSaveAnnotation Examples.store3 a).2
      = size (handleSaveAnnotation Examples.store3 a).1
    ∧ key = Utils.generateId (idNow Examples.env1) (idRandom36 Examples.env1)
    ∧ selector a = Some "#submit-btn"
    ∧ elementInfo a = Some Examples.info1
    ∧ comment a = Some "button should be disabled"
    ∧ aiPrompt a
      = Some (dialogPrompt Examples.info1 "button should be disabled")
    ∧ timestamp a = Some 1700000000001%Z
    ∧ status a = Some pending.
Proof.
  apply (save_then_read Examples.env1 Examples.info1
           "button should be disabled" Examples.store3).
  vm_compute. discriminate.
Defined.

(** A blank comment saves nothing. *)
Lemma handleSave_blank (env : SaveEnv) (info : AnnotationElementInfo)
    (text : string) :
  JS.trim text = EmptyString → handleSave env info text = None.
Proof.
  intros Hblank. apply truthy_false in Hblank.
  unfold handleSave. now rewrite Hblank.
Qed.

End Store.

(** ** The dashboard's list *)

Section Dashboard.
Import AnnotationsDashboard.

Lemma sortInsert_perm {A} (cmp : A → A → option Z) (x : A) (l : list A) :
  sortInsert cmp x l ≡ₚ x :: l.
Proof.
  induction l as [|y l IH]; cbn; [reflexivity|].
  destruct (0 <? sortCompare cmp x y)%Z; [|reflexivity].
  rewrite IH. apply perm_swap.
Qed.

Lemma Array_sort_perm {A} (cmp : A → A → option Z) (l : list A) :
  Array_sort cmp l ≡ₚ l.
Proof.
  induction l as [|x l IH]; cbn; [reflexivity|].
  now rewrite sortInsert_perm, IH.
Qed.

Lemma newestFirst_trans (a b c : DebugAnnotation) :
  newestFirst a b → newestFirst b c → newestFirst a c.
Proof.
  intros (ta & tb & Ha & Hb & Hab) (tb' & tc & Hb' & Hc & Hbc).
  exists ta, tc. repeat split; try assumption.
  rewrite Hb in Hb'. injection Hb' as <-. lia.
Qed.

Lemma sortInsert_sorted (x : DebugAnnotation) (l : list DebugAnnotation) :
  is_Some (timestamp x) →
  Forall (λ a, is_Some (timestamp a)) l →
  StronglySorted newestFirst l →
  StronglySorted newestFirst (sortInsert byTimestampDesc x l).
Proof.
  intros [tx Hx] Hall Hs.
  induction l as [|y l IH]; cbn.
  - repeat constructor.
  - apply Forall_cons in Hall as [[ty Hy] Hall].
    apply StronglySorted_inv in Hs as [Hs Hy_first].
    unfold sortCompare, byTimestampDesc. rewrite Hx, Hy. cbn.
    destruct (Z.ltb_spec 0 (ty - tx)) as [Hlt|Hge].
    + constructor; [now apply IH|].
      rewrite sortInsert_perm. constructor; [|assumption].
      exists ty, tx. repeat split; try assumption. lia.
    + assert (Hxy : newestFirst x y)
        by (exists tx, ty; repeat split; try assumption; lia).
      constructor; [now constructor|].
      constructor; [assumption|].
      eapply Forall_impl; [exact Hy_first|].
      intros z Hz. cbn. now apply newestFirst_trans with y.
Qed.

Lemma Array_sort_sorted (l : list DebugAnnotation) :
  Forall (λ a, is_Some (timestamp a)) l →
  StronglySorted newestFirst (Array_sort byTimestampDesc l).
Proof.
  induction 1 as [|x l Hx Hall IH]; cbn; [constructor|].
  apply sortInsert_sorted; [assumption| |assumption].
  now rewrite Array_sort_perm.
Qed.

Lemma filter_sorted {A} (R : A → A → Prop) (f : A → bool) (l : list A) :
  StronglySorted R l → StronglySorted R (List.filter f l).
Proof.
  induction 1 as [|x l Hs IH Hx]; cbn; [constructor|].
  destruct (f x); [|assumption].
  constructor; [assumption|].
  apply Forall_forall. intros y Hy.
  apply list_elem_of_In, filter_In in Hy as [Hy _].
  rewrite Forall_forall in Hx. now apply Hx, list_elem_of_In.
Qed.

Lemma filter_hasStatus (s : AnnotationStatus) (l : list DebugAnnotation) :
  Forall (λ a, status a = Some s) (List.filter (hasStatus s) l).
Proof.
  apply Forall_forall. intros a Ha.
  apply list_elem_of_In, filter_In in Ha as [_ Ha].
  unfold hasStatus in Ha. now apply bool_decide_eq_true in Ha.
Qed.

Lemma hasStatus_known (a : DebugAnnotation) (s s' : AnnotationStatus) :
  status a = Some s' → hasStatus s a = bool_decide (s' = s).
Proof.
  intros Hs. unfold hasStatus. rewrite Hs.
  apply bool_decide_ext. split; congruence.
Qed.

Lemma status_partition (l : list DebugAnnotation) :
  Forall (λ a, is_Some (status a)) l →
  List.filter (hasStatus pending) l ++ List.filter (hasStatus in_progress) l
    ++ List.filter (hasStatus resolved) l
    ++ List.filter (hasStatus dismissed) l ≡ₚ l.
Proof.
  induction 1 as [|x l [s Hs] Hall IH]; [reflexivity|].
  cbn [List.filter]. rewrite !(hasStatus_known x _ s Hs).
  set (fp := List.filter (hasStatus pending) l) in *.
  set (fi := List.filter (hasStatus in_progress) l) in *.
  set (fr := List.filter (hasStatus resolved) l) in *.
  set (fd := List.filter (hasStatus dismissed) l) in *.
  destruct s.
  all: repeat (rewrite bool_decide_eq_false_2 by congruence).
  all: repeat (rewrite bool_decide_eq_true_2 by reflexivity).
  all: rewrite <- ?app_comm_cons.
  - apply perm_skip, IH.
  - rewrite <- Permutation_middle. apply perm_skip, IH.
  - rewrite (app_assoc fp fi). rewrite <- Permutation_middle.
    rewrite <- app_assoc. apply perm_skip, IH.
  - rewrite (app_assoc fi fr), (app_assoc fp (fi ++ fr)).
    rewrite <- Permutation_middle.
    rewrite <- (app_assoc fp), <- (app_assoc fi). apply perm_skip, IH.
Qed.

Lemma conforms_fields (a : DebugAnnotation) :
  conforms a = true → is_Some (timestamp a) ∧ is_Some (status a).
Proof.
  unfold conforms. rewrite !andb_true_iff, !bool_decide_eq_true. tauto.
Qed.

Lemma Object_values_conform (annotations : gmap string DebugAnnotation) :
  map_Forall (λ _ a, conforms a = true) annotations →
  Forall (λ a, conforms a = true) (Object_values annotations).
Proof.
  intros H. apply map_Forall_to_list in H. unfold Object_values.
  apply Forall_fmap. eapply Forall_impl; [exact H|]. now intros [k a].
Qed.

(** C8: for a mapping of annotations (objects that conform to the interface),
    every entry of the list filtered by a status has that status; the four
    status-filtered lists together are a rearrangement of the list of the
    filter [all], which is itself a rearrangement of the mapping's values;
    and the list of every filter is sorted by descending time stamp. *)
Theorem annotationList_filter_invariant
    (annotations : gmap string DebugAnnotation) :
  map_Forall (λ _ a, conforms a = true) annotations →
  (∀ s, Forall (λ a, status a = Some s) (annotationList annotations (only s)))
  ∧ annotationList annotations (only pending)
      ++ annotationList annotations (only in_progress)
      ++ annotationList annotations (only resolved)
      ++ annotationList annotations (only dismissed)
    ≡ₚ annotationList annotations all
  ∧ annotationList annotations all ≡ₚ Object_values annotations
  ∧ (∀ f, StronglySorted newestFirst (annotationList annotations f)).
Proof.
  intros Hconf. apply Object_values_conform in Hconf.
  assert (Hsorted : Forall (λ a, conforms a = true)
            (Array_sort byTimestampDesc (Object_values annotations)))
    by now rewrite Array_sort_perm.
  split; [|split; [|split]].
  - intros s. apply filter_hasStatus.
  - unfold annotationList. apply status_partition.
    eapply Forall_impl; [exact Hsorted|]. intros a Ha.
    now apply conforms_fields in Ha.
  - apply Array_sort_perm.
  - assert (Hall : StronglySorted newestFirst (annotationList annotations all)).
    { apply Array_sort_sorted. eapply Forall_impl; [exact Hconf|].
      intros a Ha. now apply conforms_fields in Ha. }
    intros [|s]; [exact Hall|]. now apply filter_sorted.
Qed.

Lemma annotationList_filter_invariant_witness :
  map_Forall (λ _ a, conforms a = true) Examples.store3
  ∧ anno_id <$> annotationList Examples.store3 all
    = [Some "anno-3"; Some "anno-2"; Some "anno-1"]
  ∧ StronglySorted newestFirst (annotationList Examples.store3 (only pending)).
Proof.
  assert (H : map_Forall (λ _ a, conforms a = true) Examples.store3)
    by (apply map_Forall_to_list; vm_compute; repeat constructor).
  split; [exact H|]. split; [reflexivity|].
  apply (annotationList_filter_invariant Examples.store3 H).
Defined.

End Dashboard.

(** ** Status updates *)

Section StatusUpdate.
Import AnnotationsDashboard.

(** On an id that is present, [updateStatus] changes the status of that
    entry and nothing else. *)
Lemma updateStatus_present (annotations : gmap string DebugAnnotation)
    (id : string) (s : AnnotationStatus) (a : DebugAnnotation) :
  annotations !! id = Some a →
  let after := run annotations (updateStatus annotations id s) in
  (∃ a', after !! id = Some a' ∧ status a' = Some s
         ∧ anno_id a' = anno_id a ∧ selector a' = selector a
         ∧ elementInfo a' = elementInfo a ∧ comment a' = comment a
         ∧ aiPrompt a' = aiPrompt a ∧ timestamp a' = timestamp a)
  ∧ (∀ k, k ≠ id → after !! k = annotations !! k).
Proof.
  intros Ha. cbn zeta. rewrite run_updateStatus. split.
  - eexists. rewrite lookup_insert_eq, Ha. cbn. repeat split.
  - intros k Hk. now apply lookup_insert_ne.
Qed.

(** On an id that is absent, [updateStatus] stores under that id an object
    that has a status and no other property. *)
Lemma updateStatus_absent (annotations : gmap string DebugAnnotation)
    (id : string) (s : AnnotationStatus) :
  annotations !! id = None →
  let after := run annotations (updateStatus annotations id s) in
  after !! id = Some (mkDebugAnnotation None None None None None None (Some s))
  ∧ after ≠ annotations
  ∧ (∀ k, k ≠ id → after !! k = annotations !! k).
Proof.
  intros Hnone. cbn zeta. rewrite run_updateStatus, Hnone.
  split; [apply lookup_insert_eq|]. split.
  - intros Heq. apply (f_equal (λ m, m !! id)) in Heq.
    rewrite lookup_insert_eq, Hnone in Heq. discriminate.
  - intros k Hk. now apply lookup_insert_ne.
Qed.

(** C1, on the code: the dashboard shows the mapping whose single entry
    (id [anno-1]) is stored under the key [slot-1]; choosing [resolved] in
    that entry's menu calls [updateStatus("anno-1", "resolved")] on an id
    that is absent from the mapping.  The mapping is not left as it was: it
    gains an entry [anno-1] that has only a status, which no longer conforms
    to [DebugAnnotation], and the next rendering of the list fails on
    reading [elementInfo.uniqueSelector] of that entry. *)
Theorem updateStatus_absent_id_fabricates :
  let before := Examples.storeSlot in
  let shown := Examples.anno "anno-1" 10 pending in
  let after := run before (statusSelected before shown resolved) in
  annotationList before all = [shown]
  ∧ statusSelected before shown resolved = updateStatus before "anno-1" resolved
  ∧ before !! "anno-1" = None
  ∧ after !! "anno-1"
    = Some (mkDebugAnnotation None None None None None None (Some resolved))
  ∧ after ≠ before
  ∧ map_Forall (λ _ a, conforms a = true) before
  ∧ ¬ map_Forall (λ _ a, conforms a = true) after
  ∧ entrySelectors (annotationList before all) = Some ["#submit-btn"]
  ∧ entrySelectors (annotationList after all) = None.
Proof.
  cbn zeta.
  assert (Hnone : Examples.storeSlot !! "anno-1" = None) by reflexivity.
  destruct (updateStatus_absent Examples.storeSlot "anno-1" resolved Hnone)
    as (Hfab & Hneq & _).
  split; [reflexivity|]. split; [reflexivity|]. split; [exact Hnone|].
  split; [exact Hfab|]. split; [exact Hneq|]. split; [|split; [|split]].
  - apply map_Forall_to_list. vm_compute. repeat constructor.
  - intros Hall. specialize (Hall _ _ Hfab). discriminate Hall.
  - reflexivity.
  - reflexivity.
Qed.

End StatusUpdate.

(** ** Walking up the ancestors *)

(** Induction along the chain of ancestors. *)
Lemma Element_chain_ind (P : Element → Prop) :
  (∀ e, parentElement e = None → P e) →
  (∀ e p, parentElement e = Some p → P p → P e) →
  ∀ e, P e.
Proof.
  intros Hroot Hchild. fix IH 1.
  intros [u t i cn cl attrs tx ch [p|]].
  - apply Hchild with p; [reflexivity | apply IH].
  - apply Hroot. reflexivity.
Qed.

Lemma ancestorsOrSelf_parent (e p : Element) :
  parentElement e = Some p → ancestorsOrSelf e = e :: ancestorsOrSelf p.
Proof. intros Hp. destruct e; cbn in *. now rewrite Hp. Qed.

Lemma ancestorsOrSelf_root (e : Element) :
  parentElement e = None → ancestorsOrSelf e = [e].
Proof. intros Hp. destruct e; cbn in *. now rewrite Hp. Qed.

Lemma ancestorsOrSelf_head (e : Element) : ancestorsOrSelf e !! 0 = Some e.
Proof. now destruct e. Qed.

Section DomPath.
Import ElementInspector.

Lemma string_app_empty_r (s : string) : s +:+ EmptyString = s.
Proof.
  induction s as [|c s IH]; [reflexivity|].
  change (String c s +:+ EmptyString) with (String c (s +:+ EmptyString)).
  now rewrite IH.
Qed.

Lemma domPathWalk_unfold (doc : Document) (current : Element)
    (path : list string) :
  domPathWalk doc current path =
    if uid current =? body doc then path
    else if 8 <? length (domPart current :: path)
         then domPart current :: path
         else match parentElement current with
              | Some p => domPathWalk doc p (domPart current :: path)
              | None => domPart current :: path
              end.
Proof.
  unfold domPart.
  destruct current as [u t i cn cl attrs tx ch [p|]]; cbn [domPathWalk];
    cbn [DOM.id DOM.tagName uid parentElement];
    destruct (JS.truthy i); rewrite ?string_app_empty_r; reflexivity.
Qed.

Lemma domPathWalk_spec (doc : Document) (e : Element) :
  ∀ path, length path ≤ 8 →
  ∃ k, domPathWalk doc e path
       = rev (domPart <$> take k (ancestorsOrSelf e)) ++ path
     ∧ k + length path ≤ 9
     ∧ Forall (λ el, uid el ≠ body doc) (take k (ancestorsOrSelf e))
     ∧ (k + length path = 9 ∨ chainEnds doc (ancestorsOrSelf e) k).
Proof.
  induction e as [e Hroot | e p Hp IH] using Element_chain_ind;
    intros path Hlen; rewrite domPathWalk_unfold;
    destruct (Nat.eqb_spec (uid e) (body doc)) as [Hb|Hb].
  1, 3: exists 0; cbn [take fmap list_fmap rev app];
    split; [reflexivity|]; split; [lia|]; split; [constructor|];
    right; right; exists e; split; [now destruct e | exact Hb].
  - exists 1. rewrite Hroot, (ancestorsOrSelf_root e Hroot).
    cbn [take fmap list_fmap rev app length].
    destruct (8 <? S (length path));
      (split; [reflexivity|]; split; [lia|];
       split; [repeat constructor; exact Hb|]; right; now left).
  - rewrite Hp, (ancestorsOrSelf_parent e p Hp).
    destruct (Nat.ltb_spec 8 (length (domPart e :: path))) as [Hfull|Hroom].
    + exists 1. cbn [take fmap list_fmap rev app length] in *.
      split; [reflexivity|]. split; [lia|].
      split; [repeat constructor; exact Hb|]. left; lia.
    + destruct (IH (domPart e :: path)) as (k & Hwalk & Hk & Hnb & Hstops);
        [cbn in *; lia|].
      exists (S k). rewrite Hwalk. cbn [take]. rewrite fmap_cons.
      cbn [rev]. rewrite <- app_assoc. cbn [app length] in *.
      split; [reflexivity|]. split; [lia|]. split; [now constructor|].
      destruct Hstops as [Hn|Hend]; [left; lia | right; exact Hend].
Qed.

(** C5, as the code has it: the tag path of a descriptor has at most nine
    entries; they are, outermost first, [tag] or [tag#id] of the element and
    of its nearest ancestors, none of them the document body; the path has
    fewer than nine entries only where the chain ends or reaches the
    body. *)
Theorem domPath_bounded (doc : Document) (element : Element) :
  let path := domPath (getElementInfo doc element) in
  length path ≤ 9
  ∧ ∃ k, k ≤ 9
      ∧ path = rev (domPart <$> take k (ancestorsOrSelf element))
      ∧ Forall (λ el, uid el ≠ body doc) (take k (ancestorsOrSelf element))
      ∧ (k = 9 ∨ chainEnds doc (ancestorsOrSelf element) k).
Proof.
  cbn zeta. change (domPath (getElementInfo doc element))
    with (domPathWalk doc element []).
  destruct (domPathWalk_spec doc element []) as (k & Hwalk & Hk & Hnb & Hstops);
    [cbn; lia|].
  rewrite app_nil_r in Hwalk. cbn [length] in Hk, Hstops.
  rewrite Nat.add_0_r in Hk, Hstops.
  assert (Hlen : length (domPathWalk doc element []) ≤ 9).
  { rewrite Hwalk, length_rev, length_fmap, length_take. lia. }
  split; [exact Hlen|]. exists k. split; [lia|]. now split.
Qed.

(** C5, as stated, fails on the innermost of ten nested [<div>]s: its tag
    path has nine entries. *)
Lemma domPath_nine_entries :
  domPath (getElementInfo Examples.doc (Examples.nestedDiv 10))
  = ["div"; "div"; "div"; "div"; "div"; "div"; "div"; "div"; "div"]
  ∧ ¬ length (domPath (getElementInfo Examples.doc (Examples.nestedDiv 10))) ≤ 8.
Proof. split; [reflexivity | vm_compute; lia]. Qed.

End DomPath.

(** ** The levels of a generated selector *)

Section SelectorWalk.
Import ElementInspector.

Lemma selectorWalk_unfold (doc : Document) (current : Element)
    (path : list string) :
  selectorWalk doc current path =
    if uid current =? body doc then path
    else if JS.truthy (DOM.id current) then selectorLevel current :: path
    else if 10 <? length (selectorLevel current :: path)
         then selectorLevel current :: path
         else match parentElement current with
              | Some p => selectorWalk doc p (selectorLevel current :: path)
              | None => selectorLevel current :: path
              end.
Proof.
  unfold selectorLevel.
  destruct current as [u t i cn cl attrs tx ch [p|]]; cbn [selectorWalk];
    cbn [DOM.id uid parentElement]; destruct (JS.truthy i); reflexivity.
Qed.

Lemma selectorWalk_stop (doc : Document) (e : Element) (path : list string) :
  length path ≤ 10 → uid e ≠ body doc →
  S (length path) = 11 ∨ DOM.id e ≠ EmptyString ∨ parentElement e = None →
  ∃ k, selectorLevel e :: path
       = rev (selectorLevel <$> take k (ancestorsOrSelf e)) ++ path
     ∧ k + length path ≤ 11
     ∧ (uid e ≠ body doc → 1 ≤ k)
     ∧ Forall (λ el, uid el ≠ body doc) (take k (ancestorsOrSelf e))
     ∧ Forall (λ el, DOM.id el = EmptyString)
         (take (k - 1) (ancestorsOrSelf e))
     ∧ selectorWalkStops doc (ancestorsOrSelf e) k (k + length path).
Proof.
  intros Hlen Hb Hwhy. exists 1.
  assert (Hstops : selectorWalkStops doc (ancestorsOrSelf e) 1 (1 + length path)).
  { destruct Hwhy as [Hfull | [Hid | Hroot]].
    - now left.
    - right; left. exists e. split; [lia|]. split; [|exact Hid].
      apply ancestorsOrSelf_head.
    - right; right; left. now rewrite (ancestorsOrSelf_root e Hroot). }
  destruct e as [u t i cn cl attrs tx ch pe].
  cbn [ancestorsOrSelf take fmap list_fmap rev app Nat.sub] in *.
  split; [reflexivity|]. split; [lia|]. split; [lia|].
  split; [repeat constructor; exact Hb|]. split; [constructor | exact Hstops].
Qed.

(** What the walk returns: the levels of the first [k] elements of the
    chain, outermost first, in front of the path it started from.  None of
    these elements is the body, only the last of them can have an id, the
    path never grows beyond eleven levels, and the walk goes on until one of
    its three reasons to stop holds. *)
Lemma selectorWalk_spec (doc : Document) (e : Element) :
  ∀ path, length path ≤ 10 →
  ∃ k, selectorWalk doc e path
       = rev (selectorLevel <$> take k (ancestorsOrSelf e)) ++ path
     ∧ k + length path ≤ 11
     ∧ (uid e ≠ body doc → 1 ≤ k)
     ∧ Forall (λ el, uid el ≠ body doc) (take k (ancestorsOrSelf e))
     ∧ Forall (λ el, DOM.id el = EmptyString)
         (take (k - 1) (ancestorsOrSelf e))
     ∧ selectorWalkStops doc (ancestorsOrSelf e) k (k + length path).
Proof.
  induction e as [e Hroot | e p Hp IH] using Element_chain_ind;
    intros path Hlen; rewrite selectorWalk_unfold;
    destruct (Nat.eqb_spec (uid e) (body doc)) as [Hb|Hb].
  1, 3: exists 0; cbn [take fmap list_fmap rev app Nat.sub];
    split; [reflexivity|]; split; [lia|]; split; [congruence|];
    split; [constructor|]; split; [constructor|];
    right; right; right; exists e; split;
    [apply ancestorsOrSelf_head | exact Hb].
  - rewrite Hroot.
    destruct (JS.truthy (DOM.id e)), (10 <? length (selectorLevel e :: path));
      apply selectorWalk_stop; auto.
  - rewrite Hp.
    destruct (JS.truthy (DOM.id e)) eqn:Hid.
    { apply selectorWalk_stop; [assumption..|].
      right; left. now apply truthy_true. }
    destruct (Nat.ltb_spec 10 (length (selectorLevel e :: path)))
      as [Hfull|Hroom].
    { apply selectorWalk_stop; [assumption..|]. left. cbn in Hfull. lia. }
    destruct (IH (selectorLevel e :: path))
      as (k & Hwalk & Hk & Hk1 & Hnb & Hnoid & Hstops); [cbn in *; lia|].
    exists (S k). rewrite (ancestorsOrSelf_parent e p Hp), Hwalk.
    cbn [take]. rewrite fmap_cons. cbn [rev]. rewrite <- app_assoc.
    cbn [app length] in *.
    split; [reflexivity|]. split; [lia|]. split; [lia|].
    split; [now constructor|].
    apply truthy_false in Hid. split.
    + destruct k as [|k]; [constructor|].
      cbn [Nat.sub take] in *. rewrite Nat.sub_0_r in *. now constructor.
    + destruct Hstops as [Hn | [(el & Hk' & Hel & Hidel) | Hend]].
      * left. lia.
      * right; left. exists el. split; [lia|]. split; [|exact Hidel].
        destruct k as [|k]; [lia|].
        cbn [Nat.sub lookup list_lookup] in *. now rewrite Nat.sub_0_r in Hel.
      * right; right. exact Hend.
Qed.

End SelectorWalk.

(** ** Splitting a selector into its levels *)

Section Split.
Import ElementInspector.

Lemma string_app_cons (c : ascii) (s t : string) :
  String c s +:+ t = String c (s +:+ t).
Proof. reflexivity. Qed.

Lemma string_app_empty_l (s : string) : EmptyString +:+ s = s.
Proof. reflexivity. Qed.

Lemma noSpace_app (s t : string) :
  noSpace (s +:+ t) = noSpace s && noSpace t.
Proof.
  induction s as [|c s IH]; [reflexivity|].
  rewrite string_app_cons. cbn. now rewrite IH, andb_assoc.
Qed.

Lemma splitWalk_nonempty (sep : string) (s : string) :
  ∀ skip, JS.splitWalk sep skip s ≠ [].
Proof.
  induction s as [|c s IH]; intros skip; cbn [JS.splitWalk]; [easy|].
  destruct skip; [|apply IH].
  destruct (String.prefix sep (String c s)); [easy|].
  destruct (JS.splitWalk sep 0 s); easy.
Qed.

(** A level without spaces is passed over as a whole. *)
Lemma splitWalk_level (level rest : string) :
  noSpace level = true →
  JS.splitWalk " > " 0 (level +:+ rest)
  = (level +:+ hd EmptyString (JS.splitWalk " > " 0 rest))
      :: tl (JS.splitWalk " > " 0 rest).
Proof.
  induction level as [|c level IH]; intros Hns.
  - rewrite !string_app_empty_l.
    pose proof (splitWalk_nonempty " > " rest 0).
    now destruct (JS.splitWalk " > " 0 rest).
  - cbn in Hns. apply andb_true_iff in Hns as [Hc Hns].
    rewrite !string_app_cons. cbn [JS.splitWalk].
    assert (Hpre : String.prefix " > " (String c (level +:+ rest)) = false).
    { cbn [String.prefix]. destruct (ascii_dec " " c) as [Heq|_]; [|reflexivity].
      subst c. vm_compute in Hc. discriminate Hc. }
    rewrite Hpre, (IH Hns). reflexivity.
Qed.

Lemma prefix_app (s t : string) : String.prefix s (s +:+ t) = true.
Proof.
  induction s as [|c s IH]; [now destruct t|].
  rewrite string_app_cons. cbn [String.prefix].
  destruct (ascii_dec c c); [exact IH | congruence].
Qed.

(** At a separator the current piece ends and the next one starts behind
    the separator. *)
Lemma splitWalk_separator (rest : string) :
  JS.splitWalk " > " 0 (" > " +:+ rest)
  = EmptyString :: JS.splitWalk " > " 0 rest.
Proof.
  pose proof (prefix_app " > " rest) as Hpre.
  change (" > " +:+ rest) with (String " " (String ">" (String " " rest))) in *.
  cbn [JS.splitWalk]. rewrite Hpre. reflexivity.
Qed.

Lemma split_join (levels : list string) :
  levels ≠ [] → Forall (λ level, noSpace level = true) levels →
  JS.split " > " (JS.join " > " levels) = levels.
Proof.
  unfold JS.split, JS.join.
  induction levels as [|x [|y levels] IH]; intros Hne Hall; [congruence| |].
  - apply Forall_inv in Hall. cbn [String.concat].
    pose proof (splitWalk_level x EmptyString Hall) as Hx.
    cbn [JS.splitWalk hd tl] in Hx. rewrite string_app_empty_r in Hx.
    exact Hx.
  - apply Forall_cons in Hall as [Hx Hall].
    change (String.concat " > " (x :: y :: levels))
      with (x +:+ " > " +:+ String.concat " > " (y :: levels)).
    rewrite (splitWalk_level x _ Hx), splitWalk_separator.
    cbn [hd tl]. rewrite string_app_empty_r.
    rewrite IH by (assumption || discriminate). reflexivity.
Qed.

Lemma noSpace_lower_unit (c : ascii) :
  Ascii.eqb (JS.lower_unit c) " " = Ascii.eqb c " ".
Proof. destruct c as [[] [] [] [] [] [] [] []]; reflexivity. Qed.

Lemma noSpace_toLowerCase (s : string) :
  noSpace (JS.toLowerCase s) = noSpace s.
Proof.
  induction s as [|c s IH]; [reflexivity|].
  cbn. now rewrite noSpace_lower_unit, IH.
Qed.

Lemma noSpace_uint (d : Decimal.uint) :
  noSpace (NilEmpty.string_of_uint d) = true.
Proof. induction d; cbn; auto. Qed.

Lemma noSpace_decimal (z : Z) : noSpace (JS.decimal z) = true.
Proof.
  unfold JS.decimal, NilZero.string_of_int, NilZero.string_of_uint.
  destruct (Z.to_int z) as [d|d]; [|cbn];
    destruct d; try reflexivity; apply noSpace_uint.
Qed.

Lemma noSpace_join_dot (l : list string) :
  Forall (λ c, noSpace c = true) l → noSpace (JS.join "." l) = true.
Proof.
  unfold JS.join.
  induction l as [|x [|y l] IH]; intros Hall; [reflexivity| |].
  - now apply Forall_inv in Hall.
  - apply Forall_cons in Hall as [Hx Hall].
    change (String.concat "." (x :: y :: l))
      with (x +:+ "." +:+ String.concat "." (y :: l)).
    rewrite !noSpace_app, Hx, (IH Hall). reflexivity.
Qed.

Lemma noSpace_selectorLevel (el : Element) :
  spaceFreeNames el → noSpace (selectorLevel el) = true.
Proof.
  intros (Htag & Hid & Hcls). unfold selectorLevel.
  destruct (JS.truthy (DOM.id el)); [now rewrite noSpace_app, Hid|].
  assert (Hq : noSpace (classQualified el) = true).
  { unfold classQualified.
    destruct (className el) as [s|s]; [|now rewrite noSpace_toLowerCase].
    destruct (JS.truthy s), (0 <? length (DOM.classList el));
      rewrite ?noSpace_app, noSpace_toLowerCase, Htag; try reflexivity.
    rewrite noSpace_join_dot; [reflexivity|]. now apply Forall_take. }
  unfold levelSelector. destruct (0 <=? siblingIndex el)%Z; [|exact Hq].
  now rewrite !noSpace_app, Hq, noSpace_decimal.
Qed.

End Split.

Section SelectorBound.
Import ElementInspector.

Lemma generateUniqueSelector_walk (doc : Document) (element : Element) :
  DOM.id element = EmptyString →
  nonEmpty (getAttribute element "data-testid") = None →
  nonEmpty (dataset_np element) = None →
  generateUniqueSelector doc element = JS.join " > " (selectorPath doc element).
Proof.
  intros Hid Htest Hnp. unfold generateUniqueSelector.
  now rewrite Hid, Htest, Hnp.
Qed.

Lemma selectorPath_spec (doc : Document) (element : Element) :
  ∃ k, k ≤ 11
    ∧ selectorPath doc element
      = rev (selectorLevel <$> take k (ancestorsOrSelf element))
    ∧ (uid element ≠ body doc → 1 ≤ k)
    ∧ Forall (λ el, uid el ≠ body doc) (take k (ancestorsOrSelf element))
    ∧ Forall (λ el, DOM.id el = EmptyString)
        (take (k - 1) (ancestorsOrSelf element))
    ∧ selectorWalkStops doc (ancestorsOrSelf element) k k.
Proof.
  destruct (selectorWalk_spec doc element [])
    as (k & Hwalk & Hk & H1 & Hnb & Hid & Hstops); [cbn; lia|].
  exists k. rewrite app_nil_r in Hwalk. cbn [length] in Hk, Hstops.
  rewrite Nat.add_0_r in Hk, Hstops.
  split; [lia|]. now repeat split.
Qed.

Lemma selectorPath_length (doc : Document) (element : Element) :
  length (selectorPath doc element) ≤ 11.
Proof.
  destruct (selectorPath_spec doc element) as (k & Hk & -> & _).
  rewrite length_rev, length_fmap, length_take. lia.
Qed.

(** Two walks that fit the description record the same elements: the
    shorter one could only have stopped at the eleventh level, at an id or
    at the body, each of which the longer one excludes, or at the end of
    the chain, behind which there is nothing to record. *)
Lemma selectorWalkTakes_lt (doc : Document) (chain : list Element)
    (k k' : nat) :
  k < k' →
  selectorWalkTakes doc chain k → selectorWalkTakes doc chain k' →
  take k chain = take k' chain.
Proof.
  intros Hlt (_ & _ & _ & Hstops) (Hk' & Hnb' & Hid' & _).
  destruct Hstops as [Hfull | [(el & Hk & Hel & Hne) | [Hend | (b & Hb & Hbody)]]].
  - lia.
  - exfalso. apply Hne.
    apply (Forall_lookup_1 _ _ (k - 1) el Hid').
    rewrite lookup_take_lt by lia. exact Hel.
  - apply lookup_ge_None_1 in Hend. rewrite !take_ge by lia. reflexivity.
  - exfalso.
    apply (Forall_lookup_1 _ _ k b Hnb'); [|exact Hbody].
    rewrite lookup_take_lt by lia. exact Hb.
Qed.

Lemma selectorWalkTakes_unique (doc : Document) (chain : list Element)
    (k k' : nat) :
  selectorWalkTakes doc chain k → selectorWalkTakes doc chain k' →
  take k chain = take k' chain.
Proof.
  intros Hk Hk'. destruct (Nat.lt_trichotomy k k') as [Hlt | [-> | Hgt]].
  - now apply (selectorWalkTakes_lt doc).
  - reflexivity.
  - symmetry. now apply (selectorWalkTakes_lt doc).
Qed.

(** C4, as the code has it: for an element without id, test-id and debug
    comment the selector is the join of the levels of the element and its
    nearest ancestors, the outermost first.  The walk records no level for
    the document body and stops when eleven levels are recorded, at the
    first ancestor with an id (which it records), or where the chain ends
    or reaches the body, whichever comes first: some number [k] of elements
    fits this description, and every number that fits it gives the path the
    code returns.  So the selector has at most eleven levels, also when
    they are recovered by splitting it on [" > "] (the names in the chain
    being free of spaces). *)
Theorem selector_levels_bounded (doc : Document) (element : Element) :
  DOM.id element = EmptyString →
  nonEmpty (getAttribute element "data-testid") = None →
  nonEmpty (dataset_np element) = None →
  generateUniqueSelector doc element = JS.join " > " (selectorPath doc element)
  ∧ length (selectorPath doc element) ≤ 11
  ∧ (∃ k, k ≤ 11
       ∧ selectorPath doc element
         = rev (selectorLevel <$> take k (ancestorsOrSelf element))
       ∧ Forall (λ el, uid el ≠ body doc) (take k (ancestorsOrSelf element))
       ∧ Forall (λ el, DOM.id el = EmptyString)
           (take (k - 1) (ancestorsOrSelf element))
       ∧ selectorWalkStops doc (ancestorsOrSelf element) k k)
  ∧ (∀ k, selectorWalkTakes doc (ancestorsOrSelf element) k →
       selectorPath doc element
       = rev (selectorLevel <$> take k (ancestorsOrSelf element)))
  ∧ (Forall spaceFreeNames (ancestorsOrSelf element) →
     length (JS.split " > " (generateUniqueSelector doc element)) ≤ 11).
Proof.
  intros Hid Htest Hnp.
  pose proof (generateUniqueSelector_walk doc element Hid Htest Hnp) as Hgen.
  pose proof (selectorPath_length doc element) as Hlen.
  destruct (selectorPath_spec doc element)
    as (k & Hk & Hpath & _ & Hnb & Hnoid & Hstops).
  split; [exact Hgen|]. split; [exact Hlen|].
  split; [exists k; now repeat split|].
  split.
  { intros k' Hk'. rewrite Hpath. do 2 f_equal.
    apply (selectorWalkTakes_unique doc); [|exact Hk'].
    now repeat split. }
  intros Hnames. rewrite Hgen.
  destruct (selectorPath doc element) as [|level levels] eqn:Hlevels.
  - cbn. lia.
  - rewrite split_join; [exact Hlen | discriminate |].
    rewrite Hpath. apply Forall_rev, Forall_fmap, Forall_take.
    eapply Forall_impl; [exact Hnames|].
    intros el Hel. now apply noSpace_selectorLevel.
Qed.

Lemma selector_levels_bounded_witness :
  DOM.id Examples.cardDiv = EmptyString
  ∧ nonEmpty (getAttribute Examples.cardDiv "data-testid") = None
  ∧ nonEmpty (dataset_np Examples.cardDiv) = None
  ∧ generateUniqueSelector Examples.doc Examples.cardDiv
    = "div.card.wide:nth-child(1)"
  ∧ length (selectorPath Examples.doc Examples.cardDiv) ≤ 11.
Proof.
  split; [reflexivity|]. split; [reflexivity|]. split; [reflexivity|].
  split; [reflexivity|].
  destruct (selector_levels_bounded Examples.doc Examples.cardDiv
              eq_refl eq_refl eq_refl) as (_ & Hlen & _).
  exact Hlen.
Defined.

(** The walk stops at the first ancestor with an id, not at a later one:
    for a [<span>] in [<div id=inner>] in [<div id=outer>] the path is
    [#inner > span:nth-child(1)]; the path through both ids, which is also
    within eleven levels, outside the body and ends at an id, is not what
    the code returns, and does not fit the description. *)
Example selector_stops_at_first_id :
  selectorPath Examples.doc Examples.spanInInner
  = ["#inner"; "span:nth-child(1)"]
  ∧ selectorWalkTakes Examples.doc (ancestorsOrSelf Examples.spanInInner) 2
  ∧ ¬ selectorWalkTakes Examples.doc (ancestorsOrSelf Examples.spanInInner) 3.
Proof.
  split; [reflexivity|]. split.
  - split; [lia|]. split; [|split].
    + repeat constructor; vm_compute; lia.
    + repeat constructor.
    + right; left. exists Examples.innerDiv. repeat split; [lia | easy].
  - intros (_ & _ & Hnoid & _).
    apply (Forall_lookup_1 _ _ 1 Examples.innerDiv) in Hnoid;
      [discriminate Hnoid | reflexivity].
Qed.

(** C4, as stated, fails on the innermost of twelve nested [<div>]s: the
    walk records eleven levels before it stops. *)
Lemma selector_eleven_levels :
  DOM.id (Examples.nestedDiv 12) = EmptyString
  ∧ getAttribute (Examples.nestedDiv 12) "data-testid" = None
  ∧ dataset_np (Examples.nestedDiv 12) = None
  ∧ length (selectorPath Examples.doc (Examples.nestedDiv 12)) = 11
  ∧ length (JS.split " > "
              (generateUniqueSelector Examples.doc (Examples.nestedDiv 12)))
    = 11
  ∧ ¬ length (JS.split " > "
                (generateUniqueSelector Examples.doc (Examples.nestedDiv 12)))
      ≤ 10.
Proof. repeat split; try reflexivity. vm_compute. lia. Qed.

End SelectorBound.

(** ** The nth-child qualifier *)

Section NthChild.
Import ElementInspector.

Lemma indexOf_from_spec (l : list nat) (x : nat) :
  ∀ base, x ∈ l →
  ∃ i, JS.indexOf_from base l x = (base + Z.of_nat i)%Z
       ∧ l !! i = Some x ∧ ∀ j, j < i → l !! j ≠ Some x.
Proof.
  induction l as [|y l IH]; intros base Hin; [now apply elem_of_nil in Hin|].
  cbn [JS.indexOf_from]. destruct (Nat.eqb_spec y x) as [->|Hne].
  - exists 0. split; [lia|]. split; [reflexivity|]. intros j Hj. lia.
  - apply elem_of_cons in Hin as [->|Hin]; [congruence|].
    destruct (IH (base + 1)%Z Hin) as (i & Hi & Hlook & Hfirst).
    exists (S i). split; [lia|]. split; [exact Hlook|].
    intros [|j] Hj; cbn; [congruence | apply Hfirst; lia].
Qed.

Lemma levelSelector_inside (doc : Document) (el : Element) :
  insideBody doc el = true → nthChildLevel (levelSelector el) el.
Proof.
  intros Hin. destruct el as [u t i cn cl attrs tx ch [p|]];
    cbn [insideBody parentElement uid] in Hin;
    [|now rewrite andb_false_r in Hin].
  apply andb_true_iff in Hin as [_ Hin].
  apply andb_true_iff in Hin as [Hchild _].
  apply bool_decide_eq_true in Hchild.
  destruct (indexOf_from_spec (children p) u 0%Z Hchild)
    as (k & Hk & Hlook & Hfirst).
  exists p, k. split; [reflexivity|]. split; [exact Hlook|].
  split; [exact Hfirst|].
  unfold levelSelector, siblingIndex, JS.indexOf.
  cbn [parentElement uid]. rewrite Hk.
  destruct (Z.leb_spec 0 (0 + Z.of_nat k)) as [_|Hneg]; [|lia].
  now rewrite Z.add_0_l.
Qed.

Lemma insideBody_walk (doc : Document) (e : Element) :
  insideBody doc e = true →
  ∀ k, Forall (λ el, uid el ≠ body doc) (take k (ancestorsOrSelf e)) →
       Forall (λ el, insideBody doc el = true) (take k (ancestorsOrSelf e)).
Proof.
  induction e as [e Hroot | e p Hp IH] using Element_chain_ind; intros Hin k Hnb.
  - destruct e; cbn in *. subst. now rewrite andb_false_r in Hin.
  - rewrite (ancestorsOrSelf_parent e p Hp) in *.
    destruct k as [|k]; [constructor|]. cbn [take] in *.
    apply Forall_cons in Hnb as [_ Hnb].
    constructor; [exact Hin|].
    destruct k as [|k]; [constructor|].
    assert (Hpin : insideBody doc p = true).
    { destruct e; cbn in *. subst.
      apply andb_true_iff in Hin as [_ Hin].
      apply andb_true_iff in Hin as [_ Hin].
      apply orb_true_iff in Hin as [Hb|Hin]; [|exact Hin].
      apply Nat.eqb_eq in Hb. destruct p; cbn in *.
      apply Forall_cons in Hnb as [Hnb _]. contradiction. }
    now apply IH.
Qed.

Lemma selectorLevel_shape (doc : Document) (el : Element) :
  insideBody doc el = true → levelShape (selectorLevel el) el.
Proof.
  intros Hin. unfold levelShape, selectorLevel.
  destruct (JS.truthy (DOM.id el)) eqn:Hid.
  - left. split; [now apply truthy_true | reflexivity].
  - right. split; [now apply truthy_false|].
    now apply levelSelector_inside with doc.
Qed.

End NthChild.

Section NthChildClaim.
Import ElementInspector.

Lemma substring_skip (a t : string) (m : nat) :
  String.substring (String.length a) m (a +:+ t) = String.substring 0 m t.
Proof.
  induction a as [|c a IH]; [reflexivity|].
  rewrite string_app_cons. exact IH.
Qed.

Lemma substring_prefix (s t : string) :
  String.substring 0 (String.length s) (s +:+ t) = s.
Proof.
  induction s as [|c s IH]; [now destruct t|].
  rewrite string_app_cons. cbn. now rewrite IH.
Qed.

Lemma includes_app (needle a b : string) :
  needle ≠ EmptyString → JS.includes needle (a +:+ needle +:+ b) = true.
Proof.
  intros Hne. unfold JS.includes.
  destruct (String.index 0 needle (a +:+ needle +:+ b)) eqn:Hidx;
    [reflexivity|].
  exfalso.
  apply (String.index_correct3 0 (String.length a) _ _ Hidx Hne); [lia|].
  now rewrite substring_skip, substring_prefix.
Qed.

Lemma nthChildLevel_includes (level : string) (el : Element) :
  nthChildLevel level el → JS.includes ":nth-child(" level = true.
Proof.
  intros (p & i & _ & _ & _ & ->). now apply includes_app.
Qed.

Lemma levelShape_nonempty (level : string) (el : Element) :
  levelShape level el → level ≠ EmptyString.
Proof.
  intros [[_ ->] | [_ (p & i & _ & _ & _ & ->)]]; [discriminate|].
  destruct (classQualified el); discriminate.
Qed.

Lemma join_nonempty (sep : string) (l : list string) :
  l ≠ [] → Forall (λ s, s ≠ EmptyString) l → JS.join sep l ≠ EmptyString.
Proof.
  intros Hne Hall. destruct l as [|x l]; [congruence|].
  apply Forall_cons in Hall as [Hx _]. unfold JS.join.
  destruct x as [|c x]; [congruence|]. destruct l; discriminate.
Qed.

(** C3, as the code has it: for an element inside the document body
    without id, test-id and debug comment, the selector is not empty; its
    levels are, outermost first, those of the element and of at most ten
    nearest ancestors; only the outermost walked element can have an id, and
    then its level is [#id]; every other level is the tag and classes
    followed by [:nth-child(i)], [i] the 1-based position of that level's
    element among its parent's children; so when no element of the chain has
    an id every level carries an nth-child qualifier. *)
Theorem nth_child_at_every_level (doc : Document) (element : Element) :
  DOM.id element = EmptyString →
  nonEmpty (getAttribute element "data-testid") = None →
  nonEmpty (dataset_np element) = None →
  insideBody doc element = true →
  generateUniqueSelector doc element = JS.join " > " (selectorPath doc element)
  ∧ generateUniqueSelector doc element ≠ EmptyString
  ∧ (∃ k, 1 ≤ k ≤ 11
       ∧ Forall2 levelShape (rev (selectorPath doc element))
           (take k (ancestorsOrSelf element))
       ∧ Forall (λ el, DOM.id el = EmptyString)
           (take (k - 1) (ancestorsOrSelf element)))
  ∧ (Forall (λ el, DOM.id el = EmptyString) (ancestorsOrSelf element) →
     Forall (λ level, JS.includes ":nth-child(" level = true)
       (selectorPath doc element)).
Proof.
  intros Hid Htest Hnp Hin.
  pose proof (generateUniqueSelector_walk doc element Hid Htest Hnp) as Hgen.
  destruct (selectorPath_spec doc element)
    as (k & Hk & Hpath & Hk1 & Hnb & Hnoid & _).
  assert (Hbody : uid element ≠ body doc).
  { destruct element; cbn in *. apply andb_true_iff in Hin as [Hb _].
    apply negb_true_iff, Nat.eqb_neq in Hb. exact Hb. }
  specialize (Hk1 Hbody).
  pose proof (insideBody_walk doc element Hin k Hnb) as Hwalk.
  assert (Hshape : Forall2 levelShape (rev (selectorPath doc element))
                     (take k (ancestorsOrSelf element))).
  { rewrite Hpath, rev_involutive. apply Forall2_fmap_l.
    apply Forall_Forall2_diag. eapply Forall_impl; [exact Hwalk|].
    intros el Hel. cbn. now apply selectorLevel_shape with doc. }
  split; [exact Hgen|]. split; [|split].
  - rewrite Hgen. apply join_nonempty.
    + rewrite Hpath. intros Hnil. apply (f_equal length) in Hnil.
      rewrite length_rev, length_fmap, length_take in Hnil.
      destruct element; cbn [ancestorsOrSelf length] in Hnil. lia.
    + rewrite Hpath. apply Forall_rev, Forall_fmap.
      eapply Forall_impl; [exact Hwalk|]. intros el Hel. cbn.
      apply levelShape_nonempty with el. now apply selectorLevel_shape with doc.
  - exists k. split; [lia|]. now split.
  - intros Hchain. rewrite Hpath. apply Forall_rev, Forall_fmap.
    apply (Forall_take _ k) in Hchain.
    rewrite Forall_forall in Hwalk, Hchain. apply Forall_forall.
    intros el Hel. cbn.
    destruct (selectorLevel_shape doc el (Hwalk el Hel)) as [[Hno _]|[_ Hnth]].
    + now specialize (Hchain el Hel).
    + now apply nthChildLevel_includes with el.
Qed.

Lemma nth_child_at_every_level_witness :
  DOM.id Examples.cardDiv = EmptyString
  ∧ nonEmpty (getAttribute Examples.cardDiv "data-testid") = None
  ∧ nonEmpty (dataset_np Examples.cardDiv) = None
  ∧ insideBody Examples.doc Examples.cardDiv = true
  ∧ selectorPath Examples.doc Examples.cardDiv = ["div.card.wide:nth-child(1)"]
  ∧ generateUniqueSelector Examples.doc Examples.cardDiv ≠ EmptyString.
Proof.
  split; [reflexivity|]. split; [reflexivity|]. split; [reflexivity|].
  split; [reflexivity|]. split; [reflexivity|].
  destruct (nth_child_at_every_level Examples.doc Examples.cardDiv
              eq_refl eq_refl eq_refl eq_refl) as (_ & Hne & _).
  exact Hne.
Defined.

(** C3, as stated, fails on a [<span>] without id, attributes and classes
    whose parent is [<div id="root">]: the level of the parent is [#root],
    which carries no nth-child qualifier. *)
Lemma selector_level_without_nth_child :
  DOM.id Examples.spanInRoot = EmptyString
  ∧ getAttribute Examples.spanInRoot "data-testid" = None
  ∧ dataset_np Examples.spanInRoot = None
  ∧ DOM.classList Examples.spanInRoot = []
  ∧ generateUniqueSelector Examples.doc Examples.spanInRoot
    = "#root > span:nth-child(2)"
  ∧ JS.split " > " (generateUniqueSelector Examples.doc Examples.spanInRoot)
    = ["#root"; "span:nth-child(2)"]
  ∧ ¬ Forall (λ level, JS.includes ":nth-child(" level = true)
        (JS.split " > "
           (generateUniqueSelector Examples.doc Examples.spanInRoot)).
Proof.
  repeat (split; [reflexivity|]).
  intros Hall. apply Forall_inv in Hall. vm_compute in Hall. discriminate Hall.
Qed.

End NthChildClaim.

(** ** The selector kept with an annotation *)

Section AnnotationSelector.
Import ElementInspector AnnotationSystem.

Lemma annotate_selector (env : SaveEnv) (enabled : bool) (target : Element)
    (text : string) (prev next : gmap string DebugAnnotation) :
  annotate env enabled target text prev = Some next →
  ∃ key a, next !! key = Some a
    ∧ selector a = Some (clickSelector target)
    ∧ Types.uniqueSelector <$> elementInfo a = Some (clickSelector target).
Proof.
  unfold annotate, handleClick.
  destruct enabled; cbn [negb dialogElement dialogElementInfo]; [|discriminate].
  destruct (closestDebugAnnotation target);
    cbn [dialogElement dialogElementInfo]; [discriminate|].
  unfold handleSave. destruct (negb (JS.truthy (JS.trim text))); [discriminate|].
  cbn [fmap option_fmap option_map]. intros [= <-].
  eexists _, _. unfold handleSaveAnnotation. cbn [fst anno_id propertyKey].
  split; [apply lookup_insert_eq|]. split; reflexivity.
Qed.

(** C10: the click handler computes the selector of an annotation by its own
    rule: [#id] when the target has an id; otherwise the lower-cased tag
    name followed, when the target has a class name, by a dot and its first
    two classes joined by dots.  The rule reads neither the attributes nor
    the parent of the target, so it adds no nth-child qualifier and knows no
    test-id or debug comment.  An annotation saved from the dialog carries
    that selector; and for some element without an id it differs from what
    the selector generator returns. *)
Theorem annotation_selector_is_click_rule :
  (∀ target, DOM.id target ≠ EmptyString →
     clickSelector target = "#" +:+ DOM.id target)
  ∧ (∀ target, DOM.id target = EmptyString →
       clickSelector target
       = JS.toLowerCase (DOM.tagName target)
         +:+ (if classNameTruthy target
              then "." +:+ JS.join "." (take 2 (DOM.classList target))
              else EmptyString))
  ∧ (∀ target attrs kids parent,
       clickSelector
         (mkElement (uid target) (DOM.tagName target) (DOM.id target)
            (className target) (DOM.classList target) attrs
            (DOM.textContent target) kids parent)
       = clickSelector target)
  ∧ (∀ env enabled target text prev next,
       annotate env enabled target text prev = Some next →
       ∃ key a, next !! key = Some a
         ∧ selector a = Some (clickSelector target)
         ∧ Types.uniqueSelector <$> elementInfo a = Some (clickSelector target))
  ∧ (∃ doc target,
       DOM.id target = EmptyString
       ∧ clickSelector target ≠ generateUniqueSelector doc target).
Proof.
  split; [|split; [|split; [|split]]].
  - intros target Hid. apply truthy_true in Hid.
    unfold clickSelector. now rewrite Hid.
  - intros target Hid. unfold clickSelector. now rewrite Hid.
  - intros target attrs kids parent. reflexivity.
  - apply annotate_selector.
  - exists Examples.doc, Examples.cardDiv. split; [reflexivity|].
    vm_compute. discriminate.
Qed.

Lemma annotation_selector_is_click_rule_witness :
  ∃ next key a,
    annotate Examples.env1 true Examples.cardDiv "too wide" ∅ = Some next
    ∧ next !! key = Some a
    ∧ selector a = Some "div.card.wide"
    ∧ generateUniqueSelector Examples.doc Examples.cardDiv
      = "div.card.wide:nth-child(1)".
Proof.
  destruct (annotate Examples.env1 true Examples.cardDiv "too wide" ∅)
    as [next|] eqn:Hsave; [|vm_compute in Hsave; discriminate Hsave].
  destruct (proj1 (proj2 (proj2 (proj2 annotation_selector_is_click_rule)))
              Examples.env1 true Examples.cardDiv "too wide" ∅ next Hsave)
    as (key & a & Hlook & Hsel & _).
  exists next, key, a. split; [reflexivity|]. split; [exact Hlook|].
  split; [exact Hsel | reflexivity].
Defined.

End AnnotationSelector.

(** ** Scenarios of the specification *)

Section Scenarios.
Import ElementInspector AnnotationSystem AnnotationsDashboard.

(** Saving an annotation on [#submit-btn] and then setting its status to
    [resolved] leaves the comment as it was. *)
Example save_then_resolve :
  ∃ a key next,
    handleSave Examples.env1 Examples.info1 "button should be disabled" = Some a
    ∧ anno_id a = Some key
    ∧ next = run (handleSaveAnnotation ∅ a).1
               (updateStatus (handleSaveAnnotation ∅ a).1 key resolved)
    ∧ (status <$> next !! key) = Some (Some resolved)
    ∧ (comment <$> next !! key) = Some (Some "button should be disabled").
Proof. eexists _, _, _. repeat split. Qed.

(** Three nested [<div>]s without ids: each selector extends the one of the
    parent by one level. *)
Example nested_divs :
  generateUniqueSelector Examples.doc (Examples.nestedDiv 1)
  = "div:nth-child(1)"
  ∧ generateUniqueSelector Examples.doc (Examples.nestedDiv 2)
    = "div:nth-child(1) > div:nth-child(1)"
  ∧ generateUniqueSelector Examples.doc (Examples.nestedDiv 3)
    = "div:nth-child(1) > div:nth-child(1) > div:nth-child(1)".
Proof. repeat split. Qed.

(** The attribute selectors of the second and third rule. *)
Example attribute_selectors :
  generateUniqueSelector Examples.doc
    (mkElement 2 "BUTTON" EmptyString (DOMString "btn") ["btn"]
       {[ "data-testid" := "go" ]} None [] (Some Examples.bodyEl))
  = "[data-testid=" +:+ JS.quote +:+ "go" +:+ JS.quote +:+ "]"
  ∧ generateUniqueSelector Examples.doc
      (mkElement 2 "BUTTON" EmptyString (DOMString "btn") ["btn"]
         {[ "data-np" := "note" ]} None [] (Some Examples.bodyEl))
    = "[data-np=" +:+ JS.quote +:+ "note" +:+ JS.quote +:+ "]".
Proof. split; reflexivity. Qed.

End Scenarios.

(** * Further properties *)

(** ** The debug comment of an element *)

Section NPComment.
Import ElementInspector.

Lemma npWalk_unfold (parent : Element) (depth : nat) :
  npWalk parent depth =
    if depth <? 3 then
      match nonEmpty (dataset_np parent) with
      | Some parentNp => Some parentNp
      | None =>
          match parentElement parent with
          | Some p => npWalk p (depth + 1)
          | None => None
          end
      end
    else None.
Proof. now destruct parent. Qed.

Lemma head_omap_cons {A B} (f : A → option B) (x : A) (l : list A) :
  head (omap f (x :: l))
  = match f x with Some y => Some y | None => head (omap f l) end.
Proof. cbn. now destruct (f x). Qed.

Lemma npWalk_spec (parent : Element) :
  ∀ depth, depth ≤ 3 →
  npWalk parent depth
  = head (omap (λ el, nonEmpty (dataset_np el))
            (take (3 - depth) (ancestorsOrSelf parent))).
Proof.
  induction parent as [e Hroot | e p Hp IH] using Element_chain_ind;
    intros depth Hd; rewrite npWalk_unfold;
    destruct (Nat.ltb_spec depth 3) as [Hlt|Hge];
    try (replace (3 - depth) with 0 by lia; reflexivity);
    destruct (3 - depth) as [|n] eqn:Hn; try lia.
  - rewrite (ancestorsOrSelf_root e Hroot), Hroot. cbn [take].
    rewrite head_omap_cons, take_nil. reflexivity.
  - rewrite (ancestorsOrSelf_parent e p Hp), Hp. cbn [take].
    rewrite head_omap_cons, IH by lia.
    replace (3 - (depth + 1)) with n by lia. reflexivity.
Qed.

(** X1: the debug comment of an element is the first non-empty [data-np]
    value found on the element itself and then on its parent, grandparent
    and great-grandparent, in this order; a comment on a farther ancestor is
    never found, and an empty attribute is passed over. *)
Theorem extractNPComment_nearest (element : Element) :
  extractNPComment element
  = head (omap (λ el, nonEmpty (dataset_np el))
            (take 4 (ancestorsOrSelf element))).
Proof.
  unfold extractNPComment.
  destruct (parentElement element) as [p|] eqn:Hp.
  - rewrite (ancestorsOrSelf_parent element p Hp). cbn [take].
    rewrite head_omap_cons, (npWalk_spec p 0) by lia. reflexivity.
  - rewrite (ancestorsOrSelf_root element Hp). cbn [take].
    rewrite head_omap_cons. reflexivity.
Qed.

End NPComment.

(** ** A selector extends the selector of the parent *)

Section SelectorPrefix.
Import ElementInspector.

Lemma selectorWalk_suffix (doc : Document) (e : Element) :
  ∀ acc, ∃ levels, selectorWalk doc e acc = levels ++ acc.
Proof.
  induction e as [e Hroot | e p Hp IH] using Element_chain_ind;
    intros acc; rewrite selectorWalk_unfold;
    destruct (uid e =? body doc); try (now exists []);
    destruct (JS.truthy (DOM.id e)); try (now exists [selectorLevel e]);
    destruct (10 <? length (selectorLevel e :: acc));
    try (now exists [selectorLevel e]).
  - rewrite Hroot. now exists [selectorLevel e].
  - rewrite Hp. destruct (IH (selectorLevel e :: acc)) as (levels & ->).
    exists (levels ++ [selectorLevel e]). now rewrite <- app_assoc.
Qed.

(** Levels that are already behind the path do not change what the walk
    puts in front of it, as long as the limit of eleven levels is not
    reached. *)
Lemma selectorWalk_extra (doc : Document) (e : Element) :
  ∀ acc extra,
    length (selectorWalk doc e acc) + length extra ≤ 11 →
    selectorWalk doc e (acc ++ extra) = selectorWalk doc e acc ++ extra.
Proof.
  induction e as [e Hroot | e p Hp IH] using Element_chain_ind;
    intros acc extra Hlen;
    (destruct extra as [|x extra]; [now rewrite !app_nil_r|]);
    rewrite (selectorWalk_unfold doc e acc) in *;
    rewrite (selectorWalk_unfold doc e (acc ++ x :: extra));
    destruct (uid e =? body doc); try reflexivity;
    destruct (JS.truthy (DOM.id e)); try reflexivity;
    (destruct (Nat.ltb_spec 10 (length (selectorLevel e :: acc)));
      [cbn [length] in *; lia|]).
  - rewrite Hroot in *.
    now destruct (10 <? length (selectorLevel e :: acc ++ x :: extra)).
  - rewrite Hp in *.
    destruct (Nat.ltb_spec 10 (length (selectorLevel e :: acc ++ x :: extra)))
      as [Hfull|Hroom].
    + destruct (selectorWalk_suffix doc p (selectorLevel e :: acc))
        as (levels & Hlevels).
      rewrite Hlevels in *. cbn [length] in *.
      rewrite !length_app in *. cbn [length] in *.
      destruct levels; [reflexivity | cbn [length] in *; lia].
    + exact (IH (selectorLevel e :: acc) (x :: extra) Hlen).
Qed.

Lemma selectorPath_child (doc : Document) (element parent : Element) :
  parentElement element = Some parent →
  uid element ≠ body doc →
  DOM.id element = EmptyString →
  length (selectorPath doc parent) ≤ 10 →
  selectorPath doc element
  = selectorPath doc parent ++ [levelSelector element].
Proof.
  intros Hp Hb Hid Hlen. unfold selectorPath in *.
  rewrite (selectorWalk_unfold doc element []).
  apply Nat.eqb_neq in Hb. rewrite Hb, Hid, Hp. cbn [JS.truthy length].
  unfold selectorLevel. rewrite Hid. cbn [JS.truthy Nat.ltb Nat.leb].
  apply (selectorWalk_extra doc parent [] [levelSelector element]).
  cbn [length]. lia.
Qed.

Lemma string_app_assoc (a b c : string) :
  (a +:+ b) +:+ c = a +:+ (b +:+ c).
Proof.
  induction a as [|ch a IH]; [reflexivity|].
  rewrite !string_app_cons. now rewrite IH.
Qed.

Lemma join_snoc (sep : string) (l : list string) (x : string) :
  l ≠ [] → JS.join sep (l ++ [x]) = JS.join sep l +:+ sep +:+ x.
Proof.
  unfold JS.join. induction l as [|y [|z l] IH]; intros Hne; [congruence| |].
  - reflexivity.
  - change (String.concat sep ((y :: z :: l) ++ [x]))
      with (y +:+ sep +:+ String.concat sep ((z :: l) ++ [x])).
    rewrite IH by discriminate.
    change (String.concat sep (y :: z :: l))
      with (y +:+ sep +:+ String.concat sep (z :: l)).
    now rewrite !string_app_assoc.
Qed.

Lemma selectorPath_nonempty (doc : Document) (element : Element) :
  uid element ≠ body doc → selectorPath doc element ≠ [].
Proof.
  intros Hb Hnil.
  destruct (selectorPath_spec doc element) as (k & _ & Hpath & Hk & _).
  specialize (Hk Hb). rewrite Hnil in Hpath.
  apply (f_equal length) in Hpath.
  rewrite length_rev, length_fmap, length_take in Hpath.
  destruct element; cbn [ancestorsOrSelf length] in Hpath. lia.
Qed.

(** The selector of an element is the join of its levels also when the
    element has an id: the walk then records the single level [#id]. *)
Lemma generateUniqueSelector_join (doc : Document) (element : Element) :
  uid element ≠ body doc →
  DOM.id element ≠ EmptyString
  ∨ (nonEmpty (getAttribute element "data-testid") = None
     ∧ nonEmpty (dataset_np element) = None) →
  generateUniqueSelector doc element
  = JS.join " > " (selectorPath doc element).
Proof.
  intros Hb Hrule.
  destruct (JS.truthy (DOM.id element)) eqn:Hid.
  - unfold generateUniqueSelector, selectorPath.
    rewrite selectorWalk_unfold. apply Nat.eqb_neq in Hb.
    rewrite Hb, Hid. unfold selectorLevel. now rewrite Hid.
  - apply truthy_false in Hid.
    destruct Hrule as [Hne | [Htest Hnp]]; [congruence|].
    now apply generateUniqueSelector_walk.
Qed.

(** The walk records nothing for the document body. *)
Lemma selectorPath_body (doc : Document) (element : Element) :
  uid element = body doc → selectorPath doc element = [].
Proof.
  intros Hb. unfold selectorPath. rewrite selectorWalk_unfold.
  apply Nat.eqb_eq in Hb. now rewrite Hb.
Qed.

(** X2: for an element without id, other than the body, whose parent has a
    selector path of at most ten levels, the path is the path of the parent
    with the element's own level appended.  If the element has neither
    test-id nor debug comment, its selector is: below a parent other than
    the body that has an id, or neither test-id nor debug comment, the
    selector of the parent followed by [" > "] and the element's level;
    below the body, the element's level alone, without a separator. *)
Theorem selector_extends_parent (doc : Document) (element parent : Element) :
  parentElement element = Some parent →
  uid element ≠ body doc →
  DOM.id element = EmptyString →
  length (selectorPath doc parent) ≤ 10 →
  selectorPath doc element
  = selectorPath doc parent ++ [levelSelector element]
  ∧ (nonEmpty (getAttribute element "data-testid") = None →
     nonEmpty (dataset_np element) = None →
     (uid parent ≠ body doc →
      DOM.id parent ≠ EmptyString
      ∨ (nonEmpty (getAttribute parent "data-testid") = None
         ∧ nonEmpty (dataset_np parent) = None) →
      generateUniqueSelector doc element
      = generateUniqueSelector doc parent
        +:+ " > " +:+ levelSelector element)
     ∧ (uid parent = body doc →
        generateUniqueSelector doc element = levelSelector element)).
Proof.
  intros Hp Hb Hid Hlen.
  pose proof (selectorPath_child doc element parent Hp Hb Hid Hlen) as Hpath.
  split; [exact Hpath|].
  intros Htest Hnp.
  rewrite (generateUniqueSelector_walk doc element Hid Htest Hnp), Hpath.
  split.
  - intros Hpb Hrule.
    rewrite (generateUniqueSelector_join doc parent Hpb Hrule).
    apply join_snoc. now apply selectorPath_nonempty.
  - intros Hpb. rewrite (selectorPath_body doc parent Hpb). reflexivity.
Qed.

Lemma selector_extends_parent_witness :
  generateUniqueSelector Examples.doc (Examples.nestedDiv 3)
  = generateUniqueSelector Examples.doc (Examples.nestedDiv 2)
    +:+ " > " +:+ "div:nth-child(1)"
  ∧ generateUniqueSelector Examples.doc (Examples.nestedDiv 1)
    = "div:nth-child(1)".
Proof.
  assert (Hlen2 : length (selectorPath Examples.doc (Examples.nestedDiv 2)) ≤ 10)
    by (vm_compute; lia).
  assert (Hlen0 : length (selectorPath Examples.doc (Examples.nestedDiv 0)) ≤ 10)
    by (vm_compute; lia).
  assert (Hb3 : uid (Examples.nestedDiv 3) ≠ body Examples.doc)
    by (vm_compute; lia).
  assert (Hb2 : uid (Examples.nestedDiv 2) ≠ body Examples.doc)
    by (vm_compute; lia).
  assert (Hb1 : uid (Examples.nestedDiv 1) ≠ body Examples.doc)
    by (vm_compute; lia).
  split.
  - destruct (selector_extends_parent Examples.doc (Examples.nestedDiv 3)
                (Examples.nestedDiv 2) eq_refl Hb3 eq_refl Hlen2) as [_ Hsel].
    destruct (Hsel eq_refl eq_refl) as [Hinner _].
    apply Hinner; [exact Hb2|]. right. split; reflexivity.
  - destruct (selector_extends_parent Examples.doc (Examples.nestedDiv 1)
                (Examples.nestedDiv 0) eq_refl Hb1 eq_refl Hlen0) as [_ Hsel].
    destruct (Hsel eq_refl eq_refl) as [_ Houter].
    apply Houter. reflexivity.
Defined.

End SelectorPrefix.

(** ** A tag path extends the tag path of the parent *)

Section DomPathPrefix.
Import ElementInspector.

Lemma domPathWalk_suffix (doc : Document) (e : Element) :
  ∀ acc, ∃ parts, domPathWalk doc e acc = parts ++ acc.
Proof.
  induction e as [e Hroot | e p Hp IH] using Element_chain_ind;
    intros acc; rewrite domPathWalk_unfold;
    destruct (uid e =? body doc); try (now exists []);
    destruct (8 <? length (domPart e :: acc));
    try (now exists [domPart e]).
  - rewrite Hroot. now exists [domPart e].
  - rewrite Hp. destruct (IH (domPart e :: acc)) as (parts & ->).
    exists (parts ++ [domPart e]). now rewrite <- app_assoc.
Qed.

Lemma domPathWalk_extra (doc : Document) (e : Element) :
  ∀ acc extra,
    length (domPathWalk doc e acc) + length extra ≤ 9 →
    domPathWalk doc e (acc ++ extra) = domPathWalk doc e acc ++ extra.
Proof.
  induction e as [e Hroot | e p Hp IH] using Element_chain_ind;
    intros acc extra Hlen;
    (destruct extra as [|x extra]; [now rewrite !app_nil_r|]);
    rewrite (domPathWalk_unfold doc e acc) in *;
    rewrite (domPathWalk_unfold doc e (acc ++ x :: extra));
    destruct (uid e =? body doc); try reflexivity;
    (destruct (Nat.ltb_spec 8 (length (domPart e :: acc)));
      [cbn [length] in *; lia|]).
  - rewrite Hroot in *.
    now destruct (8 <? length (domPart e :: acc ++ x :: extra)).
  - rewrite Hp in *.
    destruct (Nat.ltb_spec 8 (length (domPart e :: acc ++ x :: extra)))
      as [Hfull|Hroom].
    + destruct (domPathWalk_suffix doc p (domPart e :: acc))
        as (parts & Hparts).
      rewrite Hparts in *. cbn [length] in *.
      rewrite !length_app in *. cbn [length] in *.
      destruct parts; [reflexivity | cbn [length] in *; lia].
    + exact (IH (domPart e :: acc) (x :: extra) Hlen).
Qed.

(** X3: the tag path of an element other than the body is the tag path of
    its parent followed by the element's own entry, as long as the parent's
    path has at most eight entries; so the paths of nested elements share
    their beginning. *)
Theorem getDomPath_extends_parent (doc : Document)
    (element parent : Element) :
  parentElement element = Some parent →
  uid element ≠ body doc →
  length (getDomPath doc parent) ≤ 8 →
  getDomPath doc element = getDomPath doc parent ++ [domPart element].
Proof.
  intros Hp Hb Hlen. unfold getDomPath in *.
  rewrite (domPathWalk_unfold doc element []).
  apply Nat.eqb_neq in Hb. rewrite Hb, Hp. cbn [length Nat.ltb Nat.leb].
  apply (domPathWalk_extra doc parent [] [domPart element]).
  cbn [length]. lia.
Qed.

Lemma getDomPath_extends_parent_witness :
  getDomPath Examples.doc Examples.spanInRoot
  = getDomPath Examples.doc Examples.rootDiv ++ ["span"].
Proof.
  apply (getDomPath_extends_parent Examples.doc Examples.spanInRoot
           Examples.rootDiv); [reflexivity | | ]; vm_compute; lia.
Defined.

End DomPathPrefix.

(** ** The click that opens the annotation dialog *)

Section AnnotationClick.
Import AnnotationSystem.

Lemma closestDebugAnnotation_chain (e : Element) :
  closestDebugAnnotation e = true
  ↔ Exists (λ el, is_Some (getAttribute el "data-debug-annotation"))
      (ancestorsOrSelf e).
Proof.
  induction e as [e Hroot | e p Hp IH] using Element_chain_ind.
  - rewrite (ancestorsOrSelf_root e Hroot).
    destruct e as [u t i cn cl attrs tx ch pe]; cbn in Hroot; subst pe.
    cbn [closestDebugAnnotation parentElement].
    rewrite orb_false_r, bool_decide_eq_true, Exists_cons, Exists_nil. tauto.
  - rewrite (ancestorsOrSelf_parent e p Hp), Exists_cons, <- IH.
    destruct e as [u t i cn cl attrs tx ch pe]; cbn in Hp; subst pe.
    cbn [closestDebugAnnotation parentElement].
    now rewrite orb_true_iff, bool_decide_eq_true.
Qed.

(** X4: a click leaves the dialog state untouched when annotation mode is
    off or when the target or one of its ancestors carries
    [data-debug-annotation] (the tool's own dialog and badges); in every
    other case the dialog opens on the target, with the click handler's
    selector and without a component name. *)
Theorem handleClick_opens_dialog (enabled : bool) (target : Element)
    (st : DialogState) :
  (enabled = false
   ∨ Exists (λ el, is_Some (getAttribute el "data-debug-annotation"))
       (ancestorsOrSelf target) →
   handleClick enabled (Some target) st = st)
  ∧ (enabled = true →
     Forall (λ el, getAttribute el "data-debug-annotation" = None)
       (ancestorsOrSelf target) →
     dialogElement (handleClick enabled (Some target) st) = Some target
     ∧ ∃ info,
         dialogElementInfo (handleClick enabled (Some target) st) = Some info
         ∧ Types.uniqueSelector info = clickSelector target
         ∧ Types.tagName info = JS.toLowerCase (DOM.tagName target)
         ∧ componentName info = None).
Proof.
  unfold handleClick. split.
  - intros [-> | Hin]; [reflexivity|].
    apply closestDebugAnnotation_chain in Hin. rewrite Hin.
    now destruct enabled.
  - intros -> Hout. cbn [negb].
    destruct (closestDebugAnnotation target) eqn:Hc.
    + apply closestDebugAnnotation_chain, Exists_exists in Hc
        as (el & Hel & [v Hv]).
      rewrite Forall_forall in Hout. specialize (Hout el Hel). congruence.
    + cbn. split; [reflexivity|]. eexists. repeat split.
Qed.

Lemma handleClick_opens_dialog_witness :
  dialogElement
    (handleClick true (Some Examples.cardDiv) (mkDialogState None None))
  = Some Examples.cardDiv.
Proof.
  apply (handleClick_opens_dialog true Examples.cardDiv
           (mkDialogState None None)); [reflexivity|].
  repeat constructor.
Defined.

Lemma string_length_substring_le (n : nat) (s : string) :
  String.length (String.substring 0 n s) ≤ n.
Proof.
  revert s. induction n as [|n IH]; intros [|c s]; cbn; try lia.
  specialize (IH s). lia.
Qed.

Lemma substring_nonempty (n : nat) (s : string) :
  0 < n → s ≠ EmptyString → String.substring 0 n s ≠ EmptyString.
Proof. intros Hn Hs. destruct n; [lia|]. destruct s; [congruence|]. easy. Qed.

Lemma slice50_nonempty (text : string) :
  text ≠ EmptyString →
  nonEmpty (Some (JS.slice 0 50 text)) = Some (JS.slice 0 50 text).
Proof.
  intros Hne. pose proof (substring_nonempty 50 text (Nat.lt_0_succ 49) Hne).
  unfold JS.slice. cbn [Nat.sub nonEmpty].
  now destruct (String.substring 0 50 text).
Qed.

(** The descriptor that an accepted click puts into the dialog state. *)
Lemma handleClick_fields (target : Element) (st : DialogState) :
  closestDebugAnnotation target = false →
  ∃ info,
    dialogElementInfo (handleClick true (Some target) st) = Some info
    ∧ Types.textContent info
      = nonEmpty (Some (JS.slice 0 50 (trimmedText target)))
    ∧ Types.id info = nonEmpty (Some (DOM.id target)).
Proof.
  intros Hc. unfold handleClick. rewrite Hc. cbn [negb dialogElementInfo].
  eexists. split; [reflexivity|]. cbn [Types.textContent Types.id].
  split; [|reflexivity].
  unfold trimmedText. now destruct (DOM.textContent target).
Qed.

(** X5: the text that the click handler keeps with the dialog is the
    trimmed text of the target cut to its first 50 code units, without an
    ellipsis; it is never empty and never longer than 50, and it is absent
    exactly when the trimmed text is empty.  The id is kept exactly when the
    target has one. *)
Theorem handleClick_snapshot (target : Element) (st : DialogState) :
  closestDebugAnnotation target = false →
  ∃ info,
    dialogElementInfo (handleClick true (Some target) st) = Some info
    ∧ (trimmedText target = EmptyString → Types.textContent info = None)
    ∧ (trimmedText target ≠ EmptyString →
       Types.textContent info = Some (JS.slice 0 50 (trimmedText target)))
    ∧ (∀ s, Types.textContent info = Some s →
            1 ≤ String.length s ≤ 50)
    ∧ (DOM.id target = EmptyString → Types.id info = None)
    ∧ (DOM.id target ≠ EmptyString → Types.id info = Some (DOM.id target)).
Proof.
  intros Hc.
  destruct (handleClick_fields target st Hc) as (info & Hinfo & Htext & Hid).
  exists info. split; [exact Hinfo|]. rewrite Htext, Hid.
  split; [|split; [|split; [|split]]].
  - intros ->. reflexivity.
  - apply slice50_nonempty.
  - intros s. destruct (trimmedText target) as [|c text] eqn:Ht;
      [discriminate|].
    rewrite slice50_nonempty by discriminate. intros [= <-]. split.
    + unfold JS.slice. cbn. lia.
    + apply string_length_substring_le.
  - intros ->. reflexivity.
  - intros Hne. cbn. apply truthy_true in Hne. now rewrite Hne.
Qed.

Lemma handleClick_snapshot_witness :
  ∃ info,
    dialogElementInfo
      (handleClick true (Some Examples.longText) (mkDialogState None None))
    = Some info
    ∧ Types.textContent info
      = Some "abcdefghijklmnopqrstuvwxyzabcdefghijklmnopqrstuvwx".
Proof.
  destruct (handleClick_snapshot Examples.longText (mkDialogState None None)
              eq_refl) as (info & Hinfo & _ & Htext & _).
  exists info. split; [exact Hinfo|]. apply Htext. vm_compute. discriminate.
Defined.

End AnnotationClick.

(** ** Saving, counting and updating annotations *)

Section StoreMore.
Import AnnotationSystem AnnotationsDashboard.

(** X6: [handleSaveAnnotation] stores the annotation under its id and
    touches no other entry; the count it notifies is one more than the
    number of entries before when the id is new, and the same number when
    the id was in use (the entry is replaced); deleting an annotation that
    was saved under a new id gives back the mapping from before. *)
Theorem handleSaveAnnotation_count (prev : gmap string DebugAnnotation)
    (a : DebugAnnotation) :
  let key := propertyKey (anno_id a) in
  let next := (handleSaveAnnotation prev a).1 in
  let count := (handleSaveAnnotation prev a).2 in
  next !! key = Some a
  ∧ (∀ k, k ≠ key → next !! k = prev !! k)
  ∧ (prev !! key = None → count = S (size prev))
  ∧ (is_Some (prev !! key) → count = size prev)
  ∧ (prev !! key = None → run next (deleteAnnotation next key) = prev).
Proof.
  cbn zeta. unfold handleSaveAnnotation. cbn [fst snd].
  split; [apply lookup_insert_eq|]. split; [|split; [|split]].
  - intros k Hk. now apply lookup_insert_ne.
  - apply map_size_insert_None.
  - apply map_size_insert_Some.
  - intros Hnew. rewrite run_deleteAnnotation, delete_insert_eq.
    now apply delete_id.
Qed.

Lemma handleSaveAnnotation_count_witness :
  (handleSaveAnnotation Examples.store3 (Examples.anno "anno-7" 70 pending)).2
  = 4
  ∧ (handleSaveAnnotation Examples.store3 (Examples.anno "anno-1" 70 pending)).2
    = 3.
Proof.
  split.
  - apply (handleSaveAnnotation_count Examples.store3
             (Examples.anno "anno-7" 70 pending)). reflexivity.
  - apply (handleSaveAnnotation_count Examples.store3
             (Examples.anno "anno-1" 70 pending)). now eexists.
Defined.

Lemma filter_length_perm {A} (f : A → bool) (l l' : list A) :
  l ≡ₚ l' → length (List.filter f l) = length (List.filter f l').
Proof.
  induction 1 as [|x l l' _ IH|x y l|l l' l'' _ IH1 _ IH2]; cbn.
  - reflexivity.
  - destruct (f x); cbn; now rewrite IH.
  - now destruct (f x), (f y).
  - now rewrite IH1.
Qed.

(** X7: the counts shown on the filter buttons: the count of [all] is the
    number of entries of the mapping; for a mapping of objects that conform
    to the interface it is the sum of the four status counts, and the count
    of every filter is the length of the list that the filter shows. *)
Theorem counts_match_lists (annotations : gmap string DebugAnnotation) :
  count_all (counts annotations) = size annotations
  ∧ length (annotationList annotations all) = count_all (counts annotations)
  ∧ length (annotationList annotations (only pending))
    = count_pending (counts annotations)
  ∧ length (annotationList annotations (only in_progress))
    = count_in_progress (counts annotations)
  ∧ length (annotationList annotations (only resolved))
    = count_resolved (counts annotations)
  ∧ length (annotationList annotations (only dismissed))
    = count_dismissed (counts annotations)
  ∧ (map_Forall (λ _ a, conforms a = true) annotations →
     count_all (counts annotations)
     = count_pending (counts annotations)
       + count_in_progress (counts annotations)
       + count_resolved (counts annotations)
       + count_dismissed (counts annotations)).
Proof.
  unfold counts, annotationList.
  cbn [count_all count_pending count_in_progress count_resolved
       count_dismissed].
  pose proof (Array_sort_perm byTimestampDesc (Object_values annotations))
    as Hperm.
  split; [|split; [|split; [|split; [|split; [|split]]]]].
  - unfold Object_values. now rewrite length_fmap, length_map_to_list.
  - now rewrite Hperm.
  - now apply filter_length_perm.
  - now apply filter_length_perm.
  - now apply filter_length_perm.
  - now apply filter_length_perm.
  - intros Hconf. apply Object_values_conform in Hconf.
    assert (Hstatus : Forall (λ a, is_Some (status a)) (Object_values annotations)).
    { eapply Forall_impl; [exact Hconf|]. intros a Ha.
      now apply conforms_fields in Ha. }
    pose proof (status_partition _ Hstatus) as Hpart.
    apply Permutation_length in Hpart. rewrite !length_app in Hpart. lia.
Qed.

Lemma counts_match_lists_witness :
  count_all (counts Examples.store3)
  = count_pending (counts Examples.store3)
    + count_in_progress (counts Examples.store3)
    + count_resolved (counts Examples.store3)
    + count_dismissed (counts Examples.store3).
Proof.
  apply (counts_match_lists Examples.store3).
  apply map_Forall_to_list. vm_compute. repeat constructor.
Defined.

Lemma spreadWithStatus_same (a : DebugAnnotation) (s : AnnotationStatus) :
  status a = Some s → spreadWithStatus (Some a) s = a.
Proof. destruct a; cbn. now intros ->. Qed.

Lemma spreadWithStatus_twice (o : option DebugAnnotation)
    (s s' : AnnotationStatus) :
  spreadWithStatus (Some (spreadWithStatus o s)) s' = spreadWithStatus o s'.
Proof. reflexivity. Qed.

(** X8: a status update on an id that is present keeps the number of
    entries and every other entry, and keeps the mapping conforming to the
    interface; doing it twice is the same as doing it once; and choosing the
    previous status again gives back the mapping from before. *)
Theorem updateStatus_on_present_id (annotations : gmap string DebugAnnotation)
    (id : string) (s : AnnotationStatus) (a : DebugAnnotation) :
  annotations !! id = Some a →
  let after := run annotations (updateStatus annotations id s) in
  size after = size annotations
  ∧ (map_Forall (λ _ a, conforms a = true) annotations →
     map_Forall (λ _ a, conforms a = true) after)
  ∧ run after (updateStatus after id s) = after
  ∧ (∀ s0, status a = Some s0 →
       run after (updateStatus after id s0) = annotations).
Proof.
  intros Ha. cbn zeta. rewrite !run_updateStatus, Ha.
  rewrite lookup_insert_eq, insert_insert_eq.
  split; [|split; [|split]].
  - apply map_size_insert_Some. now exists a.
  - intros Hconf. apply map_Forall_insert_2; [|exact Hconf].
    specialize (Hconf id a Ha). cbn beta in Hconf.
    destruct a; cbn in *. unfold conforms in *. cbn in *.
    rewrite !andb_true_iff in *.
    repeat split; try tauto; now apply bool_decide_eq_true.
  - reflexivity.
  - intros s0 Hs0. rewrite run_updateStatus, lookup_insert_eq.
    rewrite insert_insert_eq, spreadWithStatus_twice.
    rewrite (spreadWithStatus_same a s0 Hs0). now apply insert_id.
Qed.

Lemma updateStatus_on_present_id_witness :
  let after := run Examples.store3
                 (updateStatus Examples.store3 "anno-1" resolved) in
  size after = 3 ∧ run after (updateStatus after "anno-1" pending)
                   = Examples.store3.
Proof.
  destruct (updateStatus_on_present_id Examples.store3 "anno-1" resolved
              (Examples.anno "anno-1" 10 pending) eq_refl)
    as (Hsize & _ & _ & Hback).
  split; [exact Hsize | now apply Hback].
Defined.

End StoreMore.

(** ** The badge counts *)

Section Badges.
Import AnnotationBadges.

Lemma countOne_lookup (counts : gmap (option string) nat)
    (anno : DebugAnnotation) (sel : option string) :
  default 0 (countOne counts anno !! sel)
  = default 0 (counts !! sel)
    + (if bool_decide (selector anno = sel) then 1 else 0).
Proof.
  unfold countOne. case_bool_decide as Hsel.
  - subst sel. rewrite lookup_insert_eq. cbn. lia.
  - rewrite lookup_insert_ne by assumption. lia.
Qed.

Lemma foldl_countOne_lookup (l : list DebugAnnotation) (sel : option string) :
  ∀ counts,
    default 0 (foldl countOne counts l !! sel)
    = default 0 (counts !! sel)
      + length (List.filter (λ a, bool_decide (selector a = sel)) l).
Proof.
  induction l as [|a l IH]; intros counts; cbn [foldl List.filter].
  - cbn. lia.
  - rewrite IH, countOne_lookup.
    destruct (bool_decide (selector a = sel)); cbn [length]; lia.
Qed.

Lemma foldl_countOne_positive (l : list DebugAnnotation) :
  ∀ counts,
    map_Forall (λ _ n, 0 < n) counts →
    map_Forall (λ _ n, 0 < n) (foldl countOne counts l).
Proof.
  induction l as [|a l IH]; intros counts Hpos; cbn [foldl]; [exact Hpos|].
  apply IH. unfold countOne. apply map_Forall_insert_2; [lia | exact Hpos].
Qed.

(** X9: the badge count of a selector is the number of annotations of the
    mapping that carry exactly this selector; a selector that no annotation
    carries has no entry, and no entry holds a zero. *)
Theorem annotationCounts_counts (annotations : gmap string DebugAnnotation)
    (sel : option string) :
  let carrying :=
    List.filter (λ a, bool_decide (selector a = sel))
      (AnnotationsDashboard.Object_values annotations) in
  default 0 (annotationCounts annotations !! sel) = length carrying
  ∧ (annotationCounts annotations !! sel = None ↔ carrying = [])
  ∧ (∀ n, annotationCounts annotations !! sel = Some n → 0 < n).
Proof.
  cbn zeta. unfold annotationCounts.
  pose proof (foldl_countOne_lookup
                (AnnotationsDashboard.Object_values annotations) sel ∅) as Hn.
  rewrite lookup_empty in Hn. cbn [default Nat.add] in Hn.
  pose proof (foldl_countOne_positive
                (AnnotationsDashboard.Object_values annotations) ∅
                (map_Forall_empty _)) as Hpos.
  split; [exact Hn|]. split.
  - destruct (foldl countOne ∅ _ !! sel) as [n|] eqn:Hlook; cbn in Hn.
    + specialize (Hpos sel n Hlook). cbn beta in Hpos. split; [discriminate|].
      intros Hnil. rewrite Hnil in Hn. cbn in Hn. lia.
    + split; [|reflexivity]. intros _. now apply length_zero_iff_nil.
  - intros n Hlook. exact (Hpos sel n Hlook).
Qed.

End Badges.

Lemma annotationCounts_counts_witness :
  default 0 (AnnotationBadges.annotationCounts Examples.store3
               !! Some "#submit-btn") = 3.
Proof.
  destruct (annotationCounts_counts Examples.store3 (Some "#submit-btn"))
    as [Hn _].
  exact Hn.
Defined.

(** ** Generated ids *)

Section GeneratedIds.

Lemma decimal_inj (n m : Z) : JS.decimal n = JS.decimal m → n = m.
Proof.
  unfold JS.decimal. intros Heq.
  assert (Hnil : ∀ z, Z.to_int z ≠ Decimal.Pos Decimal.Nil
                      ∧ Z.to_int z ≠ Decimal.Neg Decimal.Nil).
  { intros [|p|p]; cbn; split; try discriminate;
      intros [= H]; now apply DecimalPos.Unsigned.to_uint_nonnil in H. }
  pose proof (NilZero.isi (Z.to_int n) (proj1 (Hnil n)) (proj2 (Hnil n))) as Hn.
  pose proof (NilZero.isi (Z.to_int m) (proj1 (Hnil m)) (proj2 (Hnil m))) as Hm.
  rewrite Heq, Hm in Hn. injection Hn as Hn.
  apply (f_equal Z.of_int) in Hn. now rewrite !DecimalZ.of_to in Hn.
Qed.

(** Two digit strings followed by a hyphen and a rest are equal only when
    the digit strings and the rests are. *)
Lemma uint_hyphen_inj (d d' : Decimal.uint) (rest rest' : string) :
  NilEmpty.string_of_uint d +:+ String "-" rest
  = NilEmpty.string_of_uint d' +:+ String "-" rest' →
  NilEmpty.string_of_uint d = NilEmpty.string_of_uint d' ∧ rest = rest'.
Proof.
  revert d'. induction d as [|d IH|d IH|d IH|d IH|d IH|d IH|d IH|d IH|d IH|d IH];
    intros d' Heq; destruct d'; cbn [NilEmpty.string_of_uint] in *;
    rewrite ?string_app_cons, ?string_app_empty_l in Heq;
    try discriminate Heq;
    try (injection Heq as Heq; destruct (IH _ Heq) as [-> ->]; now split).
  now injection Heq as ->.
Qed.

Lemma decimal_nonneg_uint (n : Z) :
  (0 ≤ n)%Z → ∃ d, JS.decimal n = NilEmpty.string_of_uint d.
Proof.
  intros Hn. unfold JS.decimal. destruct n as [|p|p]; [| |lia].
  - now exists (Decimal.D0 Decimal.Nil).
  - cbn. exists (Pos.to_uint p).
    pose proof (DecimalPos.Unsigned.to_uint_nonnil p).
    now destruct (Pos.to_uint p).
Qed.

Lemma generateId_suffix_length (random36 : string) :
  String.length (JS.slice 2 9 random36) ≤ 7.
Proof.
  unfold JS.slice. cbn [Nat.sub]. generalize 7.
  revert random36. generalize 2 as skip.
  induction skip as [|skip IH]; intros s n.
  - apply string_length_substring_le.
  - destruct s as [|c s]; cbn; [lia | apply IH].
Qed.

(** X10: two generated ids are equal only when they were made in the same
    millisecond with the same random suffix; the suffix is made of at most
    seven code units of the random string. *)
Theorem generateId_inj (now now' : Z) (random36 random36' : string) :
  (0 ≤ now)%Z → (0 ≤ now')%Z →
  Utils.generateId now random36 = Utils.generateId now' random36' →
  now = now' ∧ JS.slice 2 9 random36 = JS.slice 2 9 random36'
  ∧ String.length (JS.slice 2 9 random36) ≤ 7.
Proof.
  intros Hn Hn' Heq. unfold Utils.generateId in Heq.
  apply (inj (String.app "anno-")) in Heq.
  destruct (decimal_nonneg_uint now Hn) as (d & Hd).
  destruct (decimal_nonneg_uint now' Hn') as (d' & Hd').
  rewrite Hd, Hd' in Heq.
  change ("-" +:+ JS.slice 2 9 random36)
    with (String "-" (JS.slice 2 9 random36)) in Heq.
  change ("-" +:+ JS.slice 2 9 random36')
    with (String "-" (JS.slice 2 9 random36')) in Heq.
  apply uint_hyphen_inj in Heq as [Hdigits Hrest].
  split; [|split; [exact Hrest | apply generateId_suffix_length]].
  apply decimal_inj. now rewrite Hd, Hd'.
Qed.

Lemma generateId_inj_witness :
  Utils.generateId 1700000000000 "0.k3j2h4g5f6d7"
  ≠ Utils.generateId 1700000000001 "0.k3j2h4g5f6d7".
Proof.
  intros Heq.
  apply (generateId_inj 1700000000000 1700000000001) in Heq as [Hnow _];
    lia.
Defined.

End GeneratedIds.

(** ** Formatting a number of bytes *)

Section FormatBytes.
Import UtilsFormat.

(** What [toFixed1] prints for a quotient that is not below zero. *)
Lemma toFixed1_divPow2 (num : JSNumber.SafeInteger) (e : N)
    (He : (e <=? 64)%N = true) :
  (0 ≤ JSNumber.valueOf num)%Z →
  JSNumber.toFixed1 (JSNumber.divPow2 num e He)
  = let den := (2 ^ Z.of_N e)%Z in
    let n := ((2 * 10 * JSNumber.valueOf num + den) / (2 * den))%Z in
    JS.decimal (n / 10) +:+ "." +:+ JS.decimal (n mod 10).
Proof.
  intros Hpos. unfold JSNumber.toFixed1, JSNumber.divPow2.
  cbn [JSNumber.numerator JSNumber.log2den].
  rewrite Z.abs_eq by exact Hpos.
  destruct (Z.ltb_spec (JSNumber.valueOf num) 0) as [|_]; [lia|].
  reflexivity.
Qed.

Lemma toFixed1_tenths (num : JSNumber.SafeInteger) (e : N)
    (He : (e <=? 64)%N = true) :
  (0 ≤ JSNumber.valueOf num)%Z →
  ∃ n, JSNumber.toFixed1 (JSNumber.divPow2 num e He)
       = JS.decimal (n / 10) +:+ "." +:+ JS.decimal (n mod 10)
     ∧ (2 * (2 ^ Z.of_N e * n - 10 * JSNumber.valueOf num)
        ≤ 2 ^ Z.of_N e)%Z
     ∧ (- 2 ^ Z.of_N e
        < 2 * (2 ^ Z.of_N e * n - 10 * JSNumber.valueOf num))%Z.
Proof.
  intros Hpos. rewrite (toFixed1_divPow2 num e He Hpos). cbn zeta.
  assert (Hden : (0 < 2 ^ Z.of_N e)%Z) by (apply Z.pow_pos_nonneg; lia).
  generalize dependent (2 ^ Z.of_N e)%Z. intros den Hden.
  exists ((2 * 10 * JSNumber.valueOf num + den) / (2 * den))%Z.
  split; [reflexivity|]. split; Z.to_euclidean_division_equations; nia.
Qed.

(** X11, for a safe integer number of bytes (magnitude below 2^53): below
    1024 bytes the number is printed as it is, followed by [" B"].  From
    1024 bytes on the value is printed in KB, from 1024 * 1024 bytes on in
    MB, with one digit behind the point; the printed value is the nearest
    tenth, so it is off by at most a twentieth of the unit, and it is at
    least 1.0.  In KB it can reach 1024.0: the last 51 byte counts below
    1024 * 1024 are all printed as ["1024.0 KB"]. *)
Theorem formatBytes_rounds_to_tenths (bytes : JSNumber.SafeInteger) :
  ((JSNumber.valueOf bytes < 1024)%Z →
   formatBytes bytes = JS.decimal (JSNumber.valueOf bytes) +:+ " B")
  ∧ ((1024 ≤ JSNumber.valueOf bytes < 1024 * 1024)%Z →
     ∃ n, formatBytes bytes
          = (JS.decimal (n / 10) +:+ "." +:+ JS.decimal (n mod 10)) +:+ " KB"
        ∧ (10 ≤ n ≤ 10240)%Z
        ∧ (-512 < 1024 * n - 10 * JSNumber.valueOf bytes ≤ 512)%Z)
  ∧ ((1024 * 1024 ≤ JSNumber.valueOf bytes)%Z →
     ∃ n, formatBytes bytes
          = (JS.decimal (n / 10) +:+ "." +:+ JS.decimal (n mod 10)) +:+ " MB"
        ∧ (10 ≤ n < 10 * 2 ^ 33 + 1)%Z
        ∧ (-524288 < 1048576 * n - 10 * JSNumber.valueOf bytes ≤ 524288)%Z)
  ∧ ((1048525 ≤ JSNumber.valueOf bytes < 1024 * 1024)%Z →
     formatBytes bytes = "1024.0 KB").
Proof.
  pose proof (JSNumber.valueOf_safe bytes) as Hsafe.
  unfold JSNumber.isSafeInteger in Hsafe.
  apply andb_true_iff in Hsafe as [_ Hmax]. apply Z.ltb_lt in Hmax.
  change (2 ^ 53)%Z with 9007199254740992%Z in Hmax.
  unfold formatBytes. set (b := JSNumber.valueOf bytes) in *.
  split; [|split; [|split]].
  - intros Hlt. apply Z.ltb_lt in Hlt. now rewrite Hlt.
  - intros [Hlo Hhi].
    destruct (Z.ltb_spec b 1024) as [|_]; [lia|].
    destruct (Z.ltb_spec b (1024 * 1024)) as [_|]; [|lia].
    destruct (toFixed1_tenths bytes 10 eq_refl) as (n & -> & Hup & Hdown);
      [fold b; lia|].
    fold b in Hup, Hdown.
    change (2 ^ Z.of_N 10)%Z with 1024%Z in *.
    exists n. split; [reflexivity|]. lia.
  - intros Hlo.
    destruct (Z.ltb_spec b 1024) as [|_]; [lia|].
    destruct (Z.ltb_spec b (1024 * 1024)) as [|_]; [lia|].
    destruct (toFixed1_tenths bytes 20 eq_refl) as (n & -> & Hup & Hdown);
      [fold b; lia|].
    fold b in Hup, Hdown.
    change (2 ^ Z.of_N 20)%Z with 1048576%Z in *.
    change (2 ^ 33)%Z with 8589934592%Z.
    change (1024 * 1024)%Z with 1048576%Z in *.
    exists n. split; [reflexivity|]. lia.
  - intros [Hlo Hhi].
    destruct (Z.ltb_spec b 1024) as [|_]; [lia|].
    destruct (Z.ltb_spec b (1024 * 1024)) as [_|]; [|lia].
    rewrite toFixed1_divPow2 by (fold b; lia). cbn zeta. fold b.
    change (2 ^ Z.of_N 10)%Z with 1024%Z.
    replace ((2 * 10 * b + 1024) / (2 * 1024))%Z with 10240%Z;
      [reflexivity|].
    Z.to_euclidean_division_equations; lia.
Qed.

Lemma formatBytes_rounds_to_tenths_witness :
  formatBytes (JSNumber.mkSafeInteger 512 eq_refl) = "512 B"
  ∧ formatBytes (JSNumber.mkSafeInteger 1048575 eq_refl) = "1024.0 KB"
  ∧ (∃ n, formatBytes (JSNumber.mkSafeInteger 1536 eq_refl)
          = (JS.decimal (n / 10) +:+ "." +:+ JS.decimal (n mod 10)) +:+ " KB"
        ∧ (10 ≤ n ≤ 10240)%Z)
  ∧ (∃ n, formatBytes (JSNumber.mkSafeInteger 5242880 eq_refl)
          = (JS.decimal (n / 10) +:+ "." +:+ JS.decimal (n mod 10)) +:+ " MB"
        ∧ (10 ≤ n < 10 * 2 ^ 33 + 1)%Z).
Proof.
  split; [|split; [|split]].
  - apply (formatBytes_rounds_to_tenths (JSNumber.mkSafeInteger 512 eq_refl)).
    cbn. lia.
  - apply (formatBytes_rounds_to_tenths
             (JSNumber.mkSafeInteger 1048575 eq_refl)).
    cbn. lia.
  - destruct (formatBytes_rounds_to_tenths
                (JSNumber.mkSafeInteger 1536 eq_refl)) as (_ & Hkb & _).
    destruct Hkb as (n & Hn & Hrange & _); [cbn; lia|]. now exists n.
  - destruct (formatBytes_rounds_to_tenths
                (JSNumber.mkSafeInteger 5242880 eq_refl)) as (_ & _ & Hmb & _).
    destruct Hmb as (n & Hn & Hrange & _); [cbn; lia|]. now exists n.
Defined.

End FormatBytes.

(** ** Holding the cold-reload button *)

Section ColdReloadProperties.
Import ColdReload.

Lemma run_app (st : State) (evs evs' : list Event) :
  run st (evs ++ evs') = run (run st evs) evs'.
Proof. apply foldl_app. Qed.

(** While the progress of an interval stays below 100, its ticks only raise
    the progress. *)
Lemma run_ticks_below (h : nat) (n : nat) :
  ∀ st p, timers st !! h = Some p → p + 10 * n < 100 →
  let st' := run st (repeat (Tick h) n) in
  timers st' = <[h := p + 10 * n]> (timers st)
  ∧ reloads st' = reloads st ∧ ref st' = ref st
  ∧ coldReloadActive st' = coldReloadActive st
  ∧ nextHandle st' = nextHandle st
  ∧ (0 < n → coldReloadProgress st' = p + 10 * n).
Proof.
  induction n as [|n IH]; intros st p Hp Hlt; cbn zeta.
  - cbn [repeat run foldl]. rewrite Nat.mul_0_r, Nat.add_0_r.
    rewrite insert_id by assumption. repeat split. lia.
  - cbn [repeat run foldl step]. fold (run (tick h st) (repeat (Tick h) n)).
    assert (Htick : tick h st =
      {| coldReloadActive := coldReloadActive st;
         coldReloadProgress := p + 10;
         ref := ref st;
         timers := <[h := p + 10]> (timers st);
         nextHandle := nextHandle st;
         reloads := reloads st |}).
    { unfold tick. rewrite Hp.
      destruct (Nat.leb_spec 100 (p + 10)); [lia | reflexivity]. }
    rewrite Htick. clear Htick.
    set (st2 := {| coldReloadActive := coldReloadActive st;
                   coldReloadProgress := p + 10;
                   ref := ref st;
                   timers := <[h := p + 10]> (timers st);
                   nextHandle := nextHandle st;
                   reloads := reloads st |}).
    destruct (IH st2 (p + 10)) as (Ht & Hr & Href & Ha & Hn & Hprog);
      [apply lookup_insert_eq | lia |].
    cbn zeta in *. rewrite Ht, Hr, Href, Ha, Hn.
    cbn [st2 timers reloads ref coldReloadActive nextHandle].
    rewrite insert_insert_eq.
    replace (p + 10 + 10 * n) with (p + 10 * S n) by lia.
    repeat split. intros _. destruct n as [|n].
    + cbn. lia.
    + rewrite Hprog by lia. lia.
Qed.

Lemma run_ticks_idle (st : State) (handles : list nat) :
  timers st = ∅ → run st (Tick <$> handles) = st.
Proof.
  intros Hidle. induction handles as [|h handles IH]; [reflexivity|].
  cbn [fmap list_fmap run foldl step]. unfold tick at 1.
  rewrite Hidle, lookup_empty. exact IH.
Qed.

Lemma tick_reloads (h : nat) (st : State) (p : nat) :
  timers st !! h = Some p → 100 ≤ p + 10 →
  tick h st =
    {| coldReloadActive := coldReloadActive st;
       coldReloadProgress := p + 10;
       ref := ref st;
       timers := delete h (timers st);
       nextHandle := nextHandle st;
       reloads := S (reloads st) |}.
Proof.
  intros Hp Hfull. unfold tick. rewrite Hp.
  destruct (Nat.leb_spec 100 (p + 10)); [reflexivity | lia].
Qed.

(** X12: starting with no interval alive, holding the button reloads the
    page at the tenth tick of its interval and not before, the progress
    shown being ten times the number of ticks; releasing the button before
    the tenth tick clears the interval and sets the progress back to zero,
    and then no tick reloads the page any more. *)
Theorem cold_reload_needs_ten_ticks (st : State) (n : nat) :
  timers st = ∅ →
  let h := nextHandle st in
  let held k := run st (Start :: repeat (Tick h) k) in
  (n < 10 →
     reloads (held n) = reloads st
     ∧ coldReloadActive (held n) = true
     ∧ (0 < n → coldReloadProgress (held n) = 10 * n))
  ∧ reloads (held 10) = S (reloads st)
  ∧ coldReloadProgress (held 10) = 100
  ∧ timers (held 10) = ∅
  ∧ (n < 10 →
     let released := run (held n) [Cancel] in
     timers released = ∅
     ∧ coldReloadProgress released = 0
     ∧ coldReloadActive released = false
     ∧ reloads released = reloads st
     ∧ ∀ handles, run released (Tick <$> handles) = released).
Proof.
  intros Hidle. cbn zeta.
  set (h := nextHandle st). set (st1 := handleColdReloadStart st).
  assert (Hrun : ∀ k, run st (Start :: repeat (Tick h) k)
                      = run st1 (repeat (Tick h) k)) by reflexivity.
  assert (Hh : timers st1 !! h = Some 0)
    by (cbn; apply lookup_insert_eq).
  assert (Hbelow : ∀ k, k < 10 →
    let st' := run st1 (repeat (Tick h) k) in
    timers st' = {[h := 10 * k]} ∧ reloads st' = reloads st
    ∧ ref st' = Some h ∧ coldReloadActive st' = true
    ∧ (0 < k → coldReloadProgress st' = 10 * k)).
  { intros k Hk. destruct (run_ticks_below h k st1 0 Hh) as
      (Ht & Hr & Href & Ha & _ & Hprog); [lia|]. cbn zeta in *.
    rewrite Ht, Hr, Href, Ha. cbn [timers reloads ref coldReloadActive st1
      handleColdReloadStart]. rewrite Hidle, insert_insert_eq.
    repeat split. exact Hprog. }
  assert (Hten : run st (Start :: repeat (Tick h) 10)
                 = tick h (run st1 (repeat (Tick h) 9))).
  { rewrite Hrun. change 10 with (9 + 1) at 1.
    now rewrite repeat_app, run_app. }
  destruct (Hbelow 9) as (Ht9 & Hr9 & _); [lia|]. cbn zeta in Ht9, Hr9.
  assert (Hlast : timers (run st1 (repeat (Tick h) 9)) !! h = Some 90)
    by (rewrite Ht9; apply lookup_singleton_eq).
  split; [|split; [|split; [|split]]].
  - intros Hn. rewrite Hrun. destruct (Hbelow n Hn) as (_ & Hr & _ & Ha & Hp).
    now repeat split.
  - rewrite Hten, (tick_reloads h _ 90 Hlast) by lia.
    cbn [reloads]. now rewrite Hr9.
  - rewrite Hten, (tick_reloads h _ 90 Hlast) by lia. reflexivity.
  - rewrite Hten, (tick_reloads h _ 90 Hlast) by lia.
    cbn [timers]. rewrite Ht9. apply delete_singleton_eq.
  - intros Hn. rewrite Hrun.
    destruct (Hbelow n Hn) as (Ht & Hr & Href & _). cbn zeta in *.
    cbn [run foldl step].
    assert (Hclear : timers (handleColdReloadCancel
                               (run st1 (repeat (Tick h) n))) = ∅).
    { unfold handleColdReloadCancel. cbn [timers].
      rewrite Href, Ht. apply delete_singleton_eq. }
    split; [exact Hclear|]. split; [reflexivity|]. split; [reflexivity|].
    split; [exact Hr|]. intros handles. now apply run_ticks_idle.
Qed.

Lemma cold_reload_needs_ten_ticks_witness :
  reloads (run initial (Start :: repeat (Tick 1) 10)) = 1
  ∧ reloads (run initial (Start :: repeat (Tick 1) 9 ++ [Cancel; Tick 1])) = 0.
Proof.
  split.
  - apply (cold_reload_needs_ten_ticks initial 0). reflexivity.
  - reflexivity.
Defined.

End ColdReloadProperties.

(** ** The component name from the fiber tree *)

Section FiberName.
Import ReactFiber.

Lemma Fiber_chain_ind (P : Fiber → Prop) :
  (∀ f, fiberReturn f = None → P f) →
  (∀ f g, fiberReturn f = Some g → P g → P f) →
  ∀ f, P f.
Proof.
  intros Hroot Hstep. fix IH 1. intros [t [g|]].
  - apply Hstep with g; [reflexivity | apply IH].
  - apply Hroot. reflexivity.
Qed.

Lemma fiberWalk_first (f : Fiber) :
  fiberWalk f
  = head (omap (λ g, acceptedName (typeName (fiberType g))) (fiberChain f)).
Proof.
  induction f as [f Hroot | f g Hg IH] using Fiber_chain_ind;
    destruct f as [t r]; cbn in *; subst r;
    destruct (acceptedName (typeName t)); try reflexivity.
  exact IH.
Qed.

Lemma acceptedName_public (name : option string) (n : string) :
  acceptedName name = Some n → name = Some n ∧ publicName n.
Proof.
  unfold acceptedName, nonEmpty, publicName.
  destruct name as [m|]; [|discriminate].
  destruct (JS.truthy m) eqn:Hm; [|discriminate].
  destruct (String.prefix "_" m) eqn:Hp; [discriminate|].
  destruct (String.eqb_spec m "div"); [discriminate|].
  destruct (String.eqb_spec m "span"); [discriminate|].
  cbn. intros [= <-]. apply truthy_true in Hm. now repeat split.
Qed.

(** X13: the component name of an element is looked up on the first own
    property whose key starts with [__reactFiber$] or
    [__reactInternalInstance$]: it is the name of the nearest fiber, along
    the [return] chain, whose name ([displayName], else [name]) is not
    empty, does not start with an underscore and is neither [div] nor
    [span].  Without such a property, or without such a fiber, there is no
    name; a name that is returned is always of this kind. *)
Theorem getReactFiberName_nearest (ownProperties : list (string * option Fiber)) :
  getReactFiberName ownProperties
  = match List.find (λ kv, isFiberKey kv.1) ownProperties with
    | Some (_, Some f) =>
        head (omap (λ g, acceptedName (typeName (fiberType g)))
                (fiberChain f))
    | _ => None
    end
  ∧ (Forall (λ kv, isFiberKey kv.1 = false) ownProperties →
     getReactFiberName ownProperties = None)
  ∧ (∀ n, getReactFiberName ownProperties = Some n → publicName n).
Proof.
  unfold getReactFiberName. split; [|split].
  - destruct (List.find _ ownProperties) as [[key [f|]]|]; try reflexivity.
    apply fiberWalk_first.
  - intros Hnone.
    destruct (List.find _ ownProperties) as [[key v]|] eqn:Hfind;
      [|reflexivity].
    apply find_some in Hfind as [Hin Hkey].
    rewrite Forall_forall in Hnone.
    apply list_elem_of_In, Hnone in Hin. cbn in *. congruence.
  - intros n.
    destruct (List.find _ ownProperties) as [[key [f|]]|]; try discriminate.
    rewrite fiberWalk_first. intros Hhead.
    apply head_Some_elem_of, list_elem_of_omap in Hhead as (g & _ & Hacc).
    now apply acceptedName_public in Hacc.
Qed.

Lemma getReactFiberName_nearest_witness :
  getReactFiberName
    [("className", None); ("__reactFiber$x1", Some hostFiber);
     ("__reactProps$x1", None)]
  = Some "Card"
  ∧ publicName "Card".
Proof.
  split; [reflexivity|].
  destruct (getReactFiberName_nearest
              [("className", None); ("__reactFiber$x1", Some hostFiber);
               ("__reactProps$x1", None)]) as (_ & _ & Hpublic).
  apply Hpublic. reflexivity.
Defined.

End FiberName.

(** ** What the inspector tracks *)

Section InspectorInvariant.
Import InspectorComponent.

Lemma findTarget_allowed (page : Page) (elementsAtPoint : list Element)
    (target : Element) :
  findTarget page elementsAtPoint = Some target →
  target ∈ elementsAtPoint
  ∧ closestDebugInspector target = false
  ∧ uid target ≠ documentElement page
  ∧ uid target ≠ body (document page).
Proof.
  unfold findTarget. intros Hfind. apply find_some in Hfind as [Hin Hok].
  apply andb_true_iff in Hok as [Hok Hbody].
  apply andb_true_iff in Hok as [Hover Hroot].
  apply negb_true_iff in Hover, Hroot, Hbody.
  apply Nat.eqb_neq in Hroot, Hbody. now rewrite list_elem_of_In.
Qed.

Lemma step_tracked (page : Page) (c : Component) (e : Event) :
  tracked page c → tracked page (step page c e).
Proof.
  unfold tracked. destruct c as [en [hovered info]].
  destruct e as [elementsAtPoint| |key|value];
    cbn [step state enabled hoveredElement elementInfo]; intros Hinv.
  - unfold handleMouseMove.
    destruct en; cbn [negb hoveredElement elementInfo]; [|exact Hinv].
    destruct (findTarget page elementsAtPoint) as [target|] eqn:Hfind;
      cbn [hoveredElement elementInfo]; [|exact Hinv].
    destruct (differs target hovered);
      cbn [hoveredElement elementInfo]; [|exact Hinv].
    apply findTarget_allowed in Hfind as (_ & Hover & Hroot & Hbody).
    now repeat split.
  - exact Hinv.
  - unfold handleKeyDown, setEnabled.
    destruct (String.eqb key "Escape" && en);
      cbn [state enabled hoveredElement elementInfo negb cleared];
      [exact I | exact Hinv].
  - unfold setEnabled. cbn [state enabled hoveredElement elementInfo].
    destruct value; cbn [negb cleared hoveredElement elementInfo]; [|exact I].
    destruct hovered, info; try exact Hinv.
    destruct Hinv as (_ & Hinfo & Hrest). now split.
Qed.

Lemma run_tracked (page : Page) (events : list Event) :
  ∀ c, tracked page c → tracked page (run page c events).
Proof.
  induction events as [|e events IH]; intros c Hinv; [exact Hinv|].
  cbn [run foldl]. apply IH. now apply step_tracked.
Qed.

(** X14: whatever pointer moves, clicks, key presses and changes of the
    [enabled] prop the inspector has seen since it was mounted, a click
    selects only while the inspector is enabled and then hands over an
    element that is neither the body nor the root element nor inside the
    inspector's own overlay, with the descriptor that was computed for this
    element when the pointer reached it; and after Escape, or after being
    disabled, it tracks nothing. *)
Theorem inspector_selects_tracked (page : Page) (enabled0 : bool)
    (events : list Event) (element : Element)
    (info : ElementInspector.ElementInfo) :
  let c := run page (mount enabled0) events in
  (handleClick (enabled c) (state c) = Selected element info →
     enabled c = true
     ∧ info = ElementInspector.getElementInfo (document page) element
     ∧ uid element ≠ body (document page)
     ∧ uid element ≠ documentElement page
     ∧ closestDebugInspector element = false)
  ∧ (enabled c = false → state c = cleared)
  ∧ state (step page c (KeyDown "Escape")) = (if enabled c then cleared else state c)
  ∧ state (step page c (SetEnabled false)) = cleared.
Proof.
  cbn zeta.
  pose proof (run_tracked page events (mount enabled0) I) as Hinv.
  set (c := run page (mount enabled0) events) in *.
  unfold tracked in Hinv. destruct c as [en [hovered inf]].
  cbn [state enabled hoveredElement elementInfo] in *.
  split; [|split; [|split]].
  - unfold handleClick. destruct en; cbn [negb]; [|discriminate].
    cbn [hoveredElement elementInfo].
    destruct hovered as [h|], inf as [i|]; try discriminate.
    intros [= <- <-]. exact Hinv.
  - intros ->. destruct hovered as [h|], inf as [i|]; try reflexivity;
      try contradiction. destruct Hinv as [Hen _]. discriminate.
  - unfold step, handleKeyDown. cbn [state enabled].
    destruct en; reflexivity.
  - reflexivity.
Qed.

Lemma inspector_selects_tracked_witness :
  handleClick true
    (state (run page1 (mount true)
              [MouseMove [overlayTip; Examples.cardDiv; Examples.bodyEl];
               MouseMove [Examples.bodyEl; Examples.htmlEl]]))
  = Selected Examples.cardDiv
      (ElementInspector.getElementInfo Examples.doc Examples.cardDiv)
  ∧ uid Examples.cardDiv ≠ body Examples.doc.
Proof.
  split; [reflexivity|].
  apply (inspector_selects_tracked page1 true
           [MouseMove [overlayTip; Examples.cardDiv; Examples.bodyEl];
            MouseMove [Examples.bodyEl; Examples.htmlEl]]
           Examples.cardDiv
           (ElementInspector.getElementInfo Examples.doc Examples.cardDiv)).
  reflexivity.
Defined.

End InspectorInvariant.

(** ** Deleting and saving, as the dashboard lists them *)

Section ListAfterChange.
Import AnnotationSystem AnnotationsDashboard.

Lemma Object_values_delete (annotations : gmap string DebugAnnotation)
    (id : string) (a : DebugAnnotation) :
  annotations !! id = Some a →
  a :: Object_values (delete id annotations) ≡ₚ Object_values annotations.
Proof.
  intros Ha. unfold Object_values.
  rewrite <- (map_to_list_delete annotations id a Ha). reflexivity.
Qed.


(** X15: deleting an id that is present removes this one entry: the mapping
    has one entry less, every other id keeps its entry, the list of the
    filter [all] loses exactly the deleted annotation, and the toast
    ["Annotation deleted"] is shown after the update. *)
Theorem deleteAnnotation_removes_entry
    (annotations : gmap string DebugAnnotation) (id : string)
    (a : DebugAnnotation) :
  annotations !! id = Some a →
  let after := run annotations (deleteAnnotation annotations id) in
  size after = pred (size annotations)
  ∧ (∀ k, k ≠ id → after !! k = annotations !! k)
  ∧ a :: annotationList after all ≡ₚ annotationList annotations all
  ∧ deleteAnnotation annotations id
    = [UpdateAnnotations after; Toast "Annotation deleted" None].
Proof.
  intros Ha. cbn zeta. rewrite run_deleteAnnotation.
  split; [|split; [|split]].
  - apply map_size_delete_Some. now exists a.
  - intros k Hk. now apply lookup_delete_ne.
  - unfold annotationList. rewrite !Array_sort_perm.
    now apply Object_values_delete.
  - reflexivity.
Qed.

Lemma deleteAnnotation_removes_entry_witness :
  size (run Examples.store3 (deleteAnnotation Examples.store3 "anno-2")) = 2.
Proof.
  apply (deleteAnnotation_removes_entry Examples.store3 "anno-2"
           (Examples.anno "anno-2" 20 pending)).
  reflexivity.
Defined.



End ListAfterChange.

(** ** The two text snapshots *)

Section TextSnapshots.
Import ElementInspector AnnotationSystem.

Lemma substring_whole (n : nat) (s : string) :
  String.length s ≤ n → String.substring 0 n s = s.
Proof.
  revert s. induction n as [|n IH]; intros [|c s] Hlen; cbn in *;
    try reflexivity; try lia.
  rewrite IH; [reflexivity | lia].
Qed.

Lemma substring_substring (n m : nat) (s : string) :
  n ≤ m →
  String.substring 0 n (String.substring 0 m s) = String.substring 0 n s.
Proof.
  revert m s. induction n as [|n IH]; intros [|m] [|c s] Hle; cbn;
    try reflexivity; try lia.
  rewrite IH; [reflexivity | lia].
Qed.

Lemma substring_app_whole (n : nat) (s t : string) :
  String.length s = n → String.substring 0 n (s +:+ t) = s.
Proof.
  revert s. induction n as [|n IH]; intros [|c s] Hlen; cbn in Hlen;
    try discriminate.
  - now destruct t.
  - rewrite string_app_cons. cbn [String.substring].
    rewrite IH; [reflexivity | lia].
Qed.

(** X17: the inspector's descriptor and the annotation dialog take the text
    of the same element by two rules.  For a trimmed text of at most 50
    code units both keep the same text (or both none).  For a longer text
    the dialog keeps exactly its first 50 code units and the descriptor
    exactly its first 47 followed by ["..."]: both have 50 code units and
    they share the first 47, which are those of the trimmed text. *)
Theorem text_snapshots_agree (target : Element) (st : DialogState) :
  closestDebugAnnotation target = false →
  ∃ info,
    dialogElementInfo (handleClick true (Some target) st) = Some info
    ∧ (String.length (trimmedText target) ≤ 50 →
       Types.textContent info = extractTextContent target)
    ∧ (50 < String.length (trimmedText target) →
       ∃ kept shown,
         Types.textContent info = Some kept
         ∧ extractTextContent target = Some shown
         ∧ kept = JS.slice 0 50 (trimmedText target)
         ∧ shown = JS.slice 0 47 (trimmedText target) +:+ "..."
         ∧ String.length kept = 50 ∧ String.length shown = 50
         ∧ JS.slice 0 47 kept = JS.slice 0 47 (trimmedText target)
         ∧ JS.slice 0 47 shown = JS.slice 0 47 (trimmedText target)).
Proof.
  intros Hc.
  destruct (handleClick_fields target st Hc) as (info & Hinfo & Htext & _).
  exists info. split; [exact Hinfo|]. rewrite Htext.
  rewrite extractTextContent_cases. cbn zeta.
  destruct (JS.truthy (trimmedText target)) eqn:Ht; cbn [negb].
  - apply truthy_true in Ht. rewrite (slice50_nonempty _ Ht). split.
    + intros Hlen. destruct (Nat.ltb_spec 50 (String.length (trimmedText target)));
        [lia|]. unfold JS.slice. cbn [Nat.sub].
      now rewrite substring_whole.
    + intros Hlen. destruct (Nat.ltb_spec 50 (String.length (trimmedText target)));
        [|lia].
      eexists _, _. split; [reflexivity|]. split; [reflexivity|].
      split; [reflexivity|]. split; [reflexivity|].
      split; [|split; [|split]].
      * unfold JS.slice. cbn [Nat.sub]. apply string_length_substring. lia.
      * now apply truncated_length.
      * unfold JS.slice. cbn [Nat.sub]. apply substring_substring. lia.
      * unfold JS.slice. cbn [Nat.sub]. apply substring_app_whole.
        apply string_length_substring. lia.
  - apply truthy_false in Ht. rewrite Ht. split; [reflexivity|].
    cbn. lia.
Qed.

Lemma text_snapshots_agree_witness :
  (∃ info,
     dialogElementInfo
       (handleClick true (Some Examples.cardDiv) (mkDialogState None None))
     = Some info
     ∧ Types.textContent info = extractTextContent Examples.cardDiv)
  ∧ (∃ info,
       dialogElementInfo
         (handleClick true (Some Examples.longText) (mkDialogState None None))
       = Some info
       ∧ Types.textContent info
         = Some (JS.slice 0 50 (trimmedText Examples.longText))).
Proof.
  split.
  - destruct (text_snapshots_agree Examples.cardDiv (mkDialogState None None)
                eq_refl) as (info & Hinfo & Hshort & _).
    exists info. split; [exact Hinfo|]. apply Hshort. vm_compute. lia.
  - destruct (text_snapshots_agree Examples.longText (mkDialogState None None)
                eq_refl) as (info & Hinfo & _ & Hlong).
    exists info. split; [exact Hinfo|].
    destruct Hlong as (kept & shown & Hkept & _ & -> & _);
      [vm_compute; lia | exact Hkept].
Defined.

End TextSnapshots.
